(** * Task-Manager-CLI: the task store and its query engine

    A shallow embedding of [main.py].  The functions of the script are
    translated one by one, with the effects they have on the outside world
    made explicit:

    - the file system is a finite map from paths to file contents;
    - [print] appends to an output log;
    - [datetime.now()] and [uuid.uuid4()] are read from an environment that
      the caller of each operation supplies.

    A tasks file is taken to hold what the script itself writes, a JSON list
    of task dictionaries with the nine keys of [add_task], or something that
    [json.load] refuses as malformed JSON; files of another JSON shape,
    files whose bytes do not decode as text and failures of the operating
    system are outside the model.

    Text is modelled by Rocq strings, whose characters are bytes; [lower]
    therefore acts on the ASCII letters, which is how [str.lower] acts on
    ASCII text. *)

From Stdlib Require Import String Ascii List Bool Arith Lia.
From Stdlib Require Import Permutation Sorted DecimalString.
From stdpp Require Import gmap strings.
Import ListNotations.

Local Open Scope string_scope.
Local Open Scope list_scope.

(** ** Python primitives used by the script *)

Module Py.

(** [c.lower()] for one character. *)
Definition lower_char (c : ascii) : ascii :=
  let n := nat_of_ascii c in
  if (65 <=? n)%nat && (n <=? 90)%nat then ascii_of_nat (n + 32) else c.

(** [s.lower()] *)
Fixpoint lower (s : string) : string :=
  match s with
  | EmptyString => EmptyString
  | String c r => String (lower_char c) (lower r)
  end.

(** [x in xs] for a list of strings. *)
Definition str_in (x : string) (xs : list string) : bool :=
  existsb (String.eqb x) xs.

(** Truth value of a string: the empty string is falsy. *)
Definition truthy (s : string) : bool :=
  negb (String.eqb s "").

(** [s[:n]] *)
Definition take_str (n : nat) (s : string) : string :=
  String.substring 0 n s.

(** [sep.join(xs)] *)
Fixpoint join (sep : string) (xs : list string) : string :=
  match xs with
  | [] => ""
  | [x] => x
  | x :: r => String.append x (String.append sep (join sep r))
  end.

(** [str(n)] for a natural number. *)
Definition str_of_nat (n : nat) : string :=
  NilZero.string_of_uint (Nat.to_uint n).

(** [sorted(xs, key=...)] and [sorted(xs, key=..., reverse=True)].
    Python's sort is stable, also with [reverse=True]: elements with
    equal keys keep their input order.  [before x y] tells that [x] may
    stand before [y] when [x] comes first in the input, that is
    [key x <= key y], or [key x >= key y] for a reversed sort. *)
Section Sorted.
Context {A : Type} (before : A -> A -> bool).

Fixpoint insert_sorted (x : A) (l : list A) : list A :=
  match l with
  | [] => [x]
  | y :: r => if before x y then x :: y :: r else y :: insert_sorted x r
  end.

Fixpoint sorted (l : list A) : list A :=
  match l with
  | [] => []
  | x :: r => insert_sorted x (sorted r)
  end.
End Sorted.

End Py.

(** ** Constants *)

Definition DEFAULT_TASKS_FILE : string := "tasks.json".
Definition PRIORITIES : list string := ["low"; "medium"; "high"; "critical"].
Definition STATUSES : list string :=
  ["pending"; "in_progress"; "completed"; "cancelled"].

(** ** Data model

    A task is the dictionary that [add_task] builds and that the tasks file
    holds.  [priority] and [status] are strings, as in the file. *)

Module Task.

Record t : Type := mk {
  id : string;
  title : string;
  description : string;
  priority : string;
  status : string;
  created_at : string;
  due_date : option string;
  completed_at : option string;
  tags : list string
}.

(** [task[key] = v], one function per key that the script assigns. *)
Definition set_title (v : string) (x : t) : t :=
  mk (id x) v (description x) (priority x) (status x) (created_at x)
     (due_date x) (completed_at x) (tags x).
Definition set_description (v : string) (x : t) : t :=
  mk (id x) (title x) v (priority x) (status x) (created_at x)
     (due_date x) (completed_at x) (tags x).
Definition set_priority (v : string) (x : t) : t :=
  mk (id x) (title x) (description x) v (status x) (created_at x)
     (due_date x) (completed_at x) (tags x).
Definition set_status (v : string) (x : t) : t :=
  mk (id x) (title x) (description x) (priority x) v (created_at x)
     (due_date x) (completed_at x) (tags x).
Definition set_due_date (v : option string) (x : t) : t :=
  mk (id x) (title x) (description x) (priority x) (status x)
     (created_at x) v (completed_at x) (tags x).
Definition set_completed_at (v : option string) (x : t) : t :=
  mk (id x) (title x) (description x) (priority x) (status x)
     (created_at x) (due_date x) v (tags x).
Definition set_tags (v : list string) (x : t) : t :=
  mk (id x) (title x) (description x) (priority x) (status x)
     (created_at x) (due_date x) (completed_at x) v.

End Task.

Abbreviation task := Task.t.

(** ** The outside world *)

(** What a path of the file system holds.  A file either parses as a JSON
    list of tasks, or holds text on which [json.load] raises
    [JSONDecodeError], the one error that [load_tasks] catches; the empty
    file is of the second kind.  A path that is not in the map does not
    exist.  A file whose bytes do not decode as text makes [json.load]
    raise [UnicodeDecodeError], which nothing catches: such files are
    outside the model. *)
Inductive file : Type :=
| Json (tasks : list task)
| Unparsable (text : string).

(** What the script prints: lines of text, and the table that
    [tabulate.tabulate] renders from a header and rows. *)
Inductive output : Type :=
| Line (s : string)
| Table (headers : list string) (rows : list (list string)).

Record world : Type := mkWorld {
  fs : gmap string file;
  out : list output
}.

(** What an operation reads from its environment: the formatted result of
    [datetime.now()] and the text of [uuid.uuid4()]. *)
Record env : Type := mkEnv {
  now : string;
  uuid4 : string
}.

(** A state monad over the world. *)
Definition M (A : Type) : Type := world -> A * world.

Definition ret {A} (a : A) : M A := fun w => (a, w).
Definition bind {A B} (m : M A) (k : A -> M B) : M B :=
  fun w => let (a, w') := m w in k a w'.

Declare Scope m_scope.
Delimit Scope m_scope with M.
Notation "x <- m ;; k" := (bind m (fun x => k))
  (at level 100, m at next level, right associativity) : m_scope.
Notation "m ;;; k" := (bind m (fun _ => k))
  (at level 100, right associativity) : m_scope.

Definition print (s : string) : M unit :=
  fun w => (tt, mkWorld (fs w) (out w ++ [Line s])).

Definition print_table (headers : list string) (rows : list (list string))
  : M unit :=
  fun w => (tt, mkWorld (fs w) (out w ++ [Table headers rows])).

(** [os.path.exists] and [json.load] together: what the path holds. *)
Definition read_file (path : string) : M (option file) :=
  fun w => (fs w !! path, w).

(** [open(path, 'w')] creates the file or truncates it to zero length. *)
Definition open_w (path : string) : M unit :=
  fun w => (tt, mkWorld (<[path := Unparsable ""]> (fs w)) (out w)).

(** [json.dump(tasks, f, indent=4)] on the file just opened, up to the close
    at the end of the [with] block: the file then holds the JSON text of
    [tasks]. *)
Definition json_dump (tasks : list task) (path : string) : M unit :=
  fun w => (tt, mkWorld (<[path := Json tasks]> (fs w)) (out w)).

(** Running a sequence of steps, and the worlds that are visible while it
    runs: the one before the first step and the one after each step. *)
Fixpoint run_steps (steps : list (M unit)) : M unit :=
  match steps with
  | [] => ret tt
  | s :: r => bind s (fun _ => run_steps r)
  end.

Fixpoint visible (steps : list (M unit)) (w : world) : list world :=
  match steps with
  | [] => [w]
  | s :: r => w :: visible r (snd (s w))
  end.

(** ** Store *)

Local Open Scope m_scope.

Definition load_tasks (tasks_file : string) : M (list task) :=
  f <- read_file tasks_file ;;
  match f with
  | Some (Json tasks) => ret tasks
  | Some (Unparsable _) =>
      print ("Error: " +:+ tasks_file
             +:+ " is corrupted. Creating a new tasks file.") ;;;
      ret []
  | None => ret []
  end.

(** The steps of [save_tasks]: the [open] of the [with] statement, then the
    dump into the open file. *)
Definition save_tasks_steps (tasks : list task) (tasks_file : string)
  : list (M unit) :=
  [open_w tasks_file; json_dump tasks tasks_file].

Definition save_tasks (tasks : list task) (tasks_file : string) : M unit :=
  run_steps (save_tasks_steps tasks tasks_file).

Definition add_task (e : env) (title description priority : string)
    (due_date : option string) (tags : option (list string))
    (tasks_file : string) : M string :=
  tasks <- load_tasks tasks_file ;;
  priority <- (if negb (Py.str_in (Py.lower priority) PRIORITIES)
               then print ("Invalid priority: " +:+ priority
                           +:+ ". Using 'medium' instead.") ;;;
                    ret "medium"
               else ret priority) ;;
  let task := {|
    Task.id := Py.take_str 8 (uuid4 e);
    Task.title := title;
    Task.description := description;
    Task.priority := Py.lower priority;
    Task.status := "pending";
    Task.created_at := now e;
    Task.due_date := due_date;
    Task.completed_at := None;
    Task.tags := match tags with
                 | Some (x :: r) => x :: r
                 | _ => []
                 end
  |} in
  save_tasks (tasks ++ [task]) tasks_file ;;;
  print ("Task added with ID: " +:+ Task.id task) ;;;
  ret (Task.id task).

(** The body of the [if task["id"] == task_id] branch of [update_task], up
    to the call of [save_tasks]: the fields are assigned one after the
    other. *)
Definition update_fields (e : env)
    (title description priority status due_date : option string)
    (tags : option (list string)) (t : task) : M task :=
  let t := match title with Some v => Task.set_title v t | None => t end in
  let t := match description with
           | Some v => Task.set_description v t
           | None => t
           end in
  t <- match priority with
       | Some p =>
           if negb (Py.str_in (Py.lower p) PRIORITIES)
           then print ("Invalid priority: " +:+ p
                       +:+ ". Keeping the current priority.") ;;;
                ret t
           else ret (Task.set_priority (Py.lower p) t)
       | None => ret t
       end ;;
  t <- match status with
       | Some s =>
           if negb (Py.str_in (Py.lower s) STATUSES)
           then print ("Invalid status: " +:+ s
                       +:+ ". Keeping the current status.") ;;;
                ret t
           else
             let old_status := Task.status t in
             let t := Task.set_status (Py.lower s) t in
             if String.eqb (Task.status t) "completed"
                && negb (String.eqb old_status "completed")
             then ret (Task.set_completed_at (Some (now e)) t)
             else if negb (String.eqb (Task.status t) "completed")
             then ret (Task.set_completed_at None t)
             else ret t
       | None => ret t
       end ;;
  let t := match due_date with
           | Some v => Task.set_due_date (Some v) t
           | None => t
           end in
  let t := match tags with Some v => Task.set_tags v t | None => t end in
  ret t.

(** The [for task in tasks] loop of [update_task]: the first task whose id
    is [task_id] is updated in place; [None] when the loop ends without
    finding one. *)
Fixpoint update_first (task_id : string) (f : task -> M task)
    (tasks : list task) : M (option (list task)) :=
  match tasks with
  | [] => ret None
  | t :: r =>
      if String.eqb (Task.id t) task_id
      then t' <- f t ;; ret (Some (t' :: r))
      else o <- update_first task_id f r ;; ret (option_map (cons t) o)
  end.

Definition update_task (e : env) (task_id : string)
    (title description priority status due_date : option string)
    (tags : option (list string)) (tasks_file : string) : M bool :=
  tasks <- load_tasks tasks_file ;;
  o <- update_first task_id
         (update_fields e title description priority status due_date tags)
         tasks ;;
  match o with
  | Some tasks =>
      save_tasks tasks tasks_file ;;;
      print ("Task " +:+ task_id +:+ " updated successfully") ;;;
      ret true
  | None =>
      print ("Task with ID " +:+ task_id +:+ " not found") ;;;
      ret false
  end.

(** The [for i, task in enumerate(tasks)] loop of [delete_task]:
    [tasks.pop(i)] at the first task whose id is [task_id], giving the
    removed task and the remaining list. *)
Fixpoint pop_first (task_id : string) (tasks : list task)
  : option (task * list task) :=
  match tasks with
  | [] => None
  | t :: r =>
      if String.eqb (Task.id t) task_id then Some (t, r)
      else match pop_first task_id r with
           | Some (removed, r') => Some (removed, t :: r')
           | None => None
           end
  end.

Definition delete_task (task_id : string) (tasks_file : string) : M bool :=
  tasks <- load_tasks tasks_file ;;
  match pop_first task_id tasks with
  | Some (removed_task, tasks) =>
      save_tasks tasks tasks_file ;;;
      print ("Task " +:+ task_id +:+ " (" +:+ Task.title removed_task
             +:+ ") deleted successfully") ;;;
      ret true
  | None =>
      print ("Task with ID " +:+ task_id +:+ " not found") ;;;
      ret false
  end.

(** ** Query engine *)

(** [priority_order = {p: i for i, p in enumerate(PRIORITIES)}], as the
    lookup [priority_order.get(p)]. *)
Fixpoint index_from (i : nat) (p : string) (xs : list string) : option nat :=
  match xs with
  | [] => None
  | x :: r => if String.eqb x p then Some i else index_from (S i) p r
  end.

Definition priority_order (p : string) : option nat :=
  index_from 0 p PRIORITIES.

(** The key of the priority sort: [priority_order.get(x["priority"], 0)]. *)
Definition priority_key (x : task) : nat :=
  match priority_order (Task.priority x) with
  | Some i => i
  | None => 0
  end.

(** The key of the other sorts:
    [x[sort_by] if x[sort_by] is not None else ""], for the two keys that
    reach it. *)
Definition field_key (sort_by : string) (x : task) : string :=
  if String.eqb sort_by "created_at" then Task.created_at x
  else match Task.due_date x with
       | Some d => d
       | None => ""
       end.

(** The sorting step of [list_tasks]. *)
Definition sort_tasks (sort_by : string) (tasks : list task) : list task :=
  if Py.str_in sort_by ["created_at"; "due_date"; "priority"]
  then
    if String.eqb sort_by "priority"
    then Py.sorted (fun x y => Nat.leb (priority_key y) (priority_key x)) tasks
    else Py.sorted
           (fun x y => String.leb (field_key sort_by x) (field_key sort_by y))
           tasks
  else tasks.

(** The tag filter: [tag.lower() in [t.lower() for t in task["tags"]]]. *)
Definition has_tag (tag : string) (x : task) : bool :=
  Py.str_in (Py.lower tag) (map Py.lower (Task.tags x)).

(** The filtering and sorting part of [list_tasks]: either the message of
    the [return] that rejects a filter value, or the tasks that go on to be
    displayed. *)
Definition select_tasks (status priority tag : option string)
    (sort_by : string) (tasks : list task) : string + list task :=
  let after_status :=
    match status with
    | Some s =>
        if Py.truthy s
        then if negb (Py.str_in (Py.lower s) STATUSES)
             then inl ("Invalid status: " +:+ s)
             else inr (List.filter
                         (fun x => String.eqb (Task.status x) (Py.lower s))
                         tasks)
        else inr tasks
    | None => inr tasks
    end in
  match after_status with
  | inl msg => inl msg
  | inr tasks =>
      let after_priority :=
        match priority with
        | Some p =>
            if Py.truthy p
            then if negb (Py.str_in (Py.lower p) PRIORITIES)
                 then inl ("Invalid priority: " +:+ p)
                 else inr (List.filter
                             (fun x =>
                                String.eqb (Task.priority x) (Py.lower p))
                             tasks)
            else inr tasks
        | None => inr tasks
        end in
      match after_priority with
      | inl msg => inl msg
      | inr tasks =>
          let tasks :=
            match tag with
            | Some g => if Py.truthy g then List.filter (has_tag g) tasks
                        else tasks
            | None => tasks
            end in
          inr (sort_tasks sort_by tasks)
      end
  end.

(** One row of [table_data]. *)
Definition table_row (x : task) : list string :=
  let due_date :=
    match Task.due_date x with
    | Some d => if Py.truthy d then d else ""
    | None => ""
    end in
  let description := Task.description x in
  let description :=
    if Py.truthy description && Nat.ltb 30 (String.length description)
    then Py.take_str 27 description +:+ "..."
    else description in
  let tags :=
    match Task.tags x with
    | [] => ""
    | _ => Py.join ", " (Task.tags x)
    end in
  [Task.id x; Task.title x; description; Task.priority x; Task.status x;
   due_date; tags].

Definition nl : string := String (ascii_of_nat 10) EmptyString.

Definition list_tasks (status priority tag : option string)
    (sort_by : string) (tasks_file : string) : M unit :=
  tasks <- load_tasks tasks_file ;;
  match select_tasks status priority tag sort_by tasks with
  | inl msg => print msg
  | inr [] => print "No tasks found"
  | inr tasks =>
      print_table
        ["ID"; "Title"; "Description"; "Priority"; "Status"; "Due Date";
         "Tags"]
        (map table_row tasks) ;;;
      print (nl +:+ "Total: " +:+ Py.str_of_nat (length tasks) +:+ " tasks"
             +:+ nl)
  end.

(** ** Vocabulary of the statements *)

(** The task that the loops [for task in tasks: if task["id"] == task_id]
    reach: the first one with that id. *)
Fixpoint find_task (task_id : string) (tasks : list task) : option task :=
  match tasks with
  | [] => None
  | t :: r => if String.eqb (Task.id t) task_id then Some t
              else find_task task_id r
  end.

(** [v.lower() in enum] *)
Definition valid_in (enum : list string) (v : string) : bool :=
  Py.str_in (Py.lower v) enum.

(** The lines that [update_fields] prints. *)
Definition field_warnings (priority status : option string) : list output :=
  match priority with
  | Some p => if valid_in PRIORITIES p then []
              else [Line ("Invalid priority: " +:+ p
                          +:+ ". Keeping the current priority.")]
  | None => []
  end ++
  match status with
  | Some s => if valid_in STATUSES s then []
              else [Line ("Invalid status: " +:+ s
                          +:+ ". Keeping the current status.")]
  | None => []
  end.

(** The task that the update operation is described to produce: each
    provided field is applied on its own, a priority or status outside its
    enum leaves that field as it was, and [completed_at] follows the
    status. *)
Definition spec_update (e : env)
    (title description priority status due_date : option string)
    (tags : option (list string)) (t : task) : task := {|
  Task.id := Task.id t;
  Task.title := match title with Some v => v | None => Task.title t end;
  Task.description :=
    match description with Some v => v | None => Task.description t end;
  Task.priority :=
    match priority with
    | Some p => if valid_in PRIORITIES p then Py.lower p else Task.priority t
    | None => Task.priority t
    end;
  Task.status :=
    match status with
    | Some s => if valid_in STATUSES s then Py.lower s else Task.status t
    | None => Task.status t
    end;
  Task.created_at := Task.created_at t;
  Task.due_date :=
    match due_date with Some v => Some v | None => Task.due_date t end;
  Task.completed_at :=
    match status with
    | Some s =>
        if valid_in STATUSES s
        then if String.eqb (Py.lower s) "completed"
             then if String.eqb (Task.status t) "completed"
                  then Task.completed_at t
                  else Some (now e)
             else None
        else Task.completed_at t
    | None => Task.completed_at t
    end;
  Task.tags := match tags with Some v => v | None => Task.tags t end
|}.

(** A field that is assigned when a value is provided and kept
    otherwise. *)
Definition field_applied {A : Type} (provided : option A) (old new : A)
  : Prop :=
  match provided with
  | Some v => new = v
  | None => new = old
  end.

(** An enum field: a provided value is assigned in lower case when it is in
    the enum, and the field is kept otherwise. *)
Definition enum_applied (enum : list string) (provided : option string)
    (old new : string) : Prop :=
  match provided with
  | Some v => if valid_in enum v then new = Py.lower v else new = old
  | None => new = old
  end.

(** A filter value that is given and is outside its enum. *)
Definition rejected_filter (enum : list string) (o : option string) : Prop :=
  exists v, o = Some v /\ v <> "" /\ valid_in enum v = false.

(** The tasks that go on to be displayed: none when the query is
    rejected. *)
Definition returned (r : string + list task) : list task :=
  match r with
  | inl _ => []
  | inr l => l
  end.

(** Status and tag both match, letter case apart. *)
Definition matches_both (s g : string) (x : task) : bool :=
  String.eqb (Py.lower (Task.status x)) (Py.lower s)
  && existsb (fun tg => String.eqb (Py.lower tg) (Py.lower g)) (Task.tags x).

(** The collection that [load_tasks] reads from a path. *)
Definition stored (tasks_file : string) (w : world) : list task :=
  match fs w !! tasks_file with
  | Some (Json tasks) => tasks
  | _ => []
  end.

(** A task as the store's own operations write it: status and priority in
    their enums, and a [completed_at] whenever the status is "completed". *)
Definition well_formed (t : task) : Prop :=
  In (Task.status t) STATUSES
  /\ In (Task.priority t) PRIORITIES
  /\ (Task.status t = "completed" -> Task.completed_at t <> None).

(** The line that [load_tasks] prints for a tasks file that does not
    parse; nothing for a file that parses or is missing. *)
Definition corruption_report (tasks_file : string) (w : world)
  : list output :=
  match fs w !! tasks_file with
  | Some (Unparsable _) =>
      [Line ("Error: " +:+ tasks_file
             +:+ " is corrupted. Creating a new tasks file.")]
  | _ => []
  end.

(** The severity of a priority: critical above high, high above medium,
    medium above low.  A text that is none of the four, which the data
    model excludes, is given the lowest rank. *)
Definition severity (p : string) : nat :=
  if String.eqb p "critical" then 3
  else if String.eqb p "high" then 2
  else if String.eqb p "medium" then 1
  else 0.

(** Text made of ASCII characters only. *)
Fixpoint ascii_text (s : string) : bool :=
  match s with
  | EmptyString => true
  | String c r => Nat.ltb (nat_of_ascii c) 128 && ascii_text r
  end.

(** ** Sample data *)

Definition sample_env : env :=
  mkEnv "2024-03-05 12:30:00" "9b2d4f6a-1c3e-4a5b-8d7f-0123456789ab".

Definition later_env : env :=
  mkEnv "2024-03-06 08:00:00" "9b2d4f6a-77aa-4c1d-9e2f-ba9876543210".

Definition milk : task :=
  Task.mk "abc123de" "Buy milk" "two litres" "high" "pending"
          "2024-03-01 09:00:00" None None ["home"; "Shop"].

Definition report : task :=
  Task.mk "0f1e2d3c" "Write report" "" "critical" "completed"
          "2024-03-02 10:00:00" (Some "2024-03-10")
          (Some "2024-03-04 17:45:00") ["work"].

(** A task as a hand-edited tasks file can hold it: completed, with a null
    [completed_at]. *)
Definition stale : task :=
  Task.mk "a1b2c3d4" "Ship parcel" "" "medium" "completed"
          "2024-03-03 11:00:00" None None [].

Definition sample_world : world :=
  mkWorld {[ "tasks.json" := Json [milk; report] ]} [].

Definition stale_world : world :=
  mkWorld {[ "tasks.json" := Json [stale] ]} [].

(** Four tasks with the priorities low, critical, medium, critical. *)
Definition with_priority (i p : string) : task :=
  Task.mk i ("task " +:+ i) "" p "pending" "2024-03-01 09:00:00" None None [].

Definition four_tasks : list task :=
  [with_priority "t1" "low"; with_priority "t2" "critical";
   with_priority "t3" "medium"; with_priority "t4" "critical"].

(** Six tasks with the priorities medium, high, low, critical, high,
    medium. *)
Definition six_tasks : list task :=
  [with_priority "u1" "medium"; with_priority "u2" "high";
   with_priority "u3" "low"; with_priority "u4" "critical";
   with_priority "u5" "high"; with_priority "u6" "medium"].

(** ** Viewing a task *)

(** [s * n] *)
Fixpoint str_mul (s : string) (n : nat) : string :=
  match n with
  | O => ""
  | S k => s +:+ str_mul s k
  end.

(** The lines that [view_task] prints for the task it finds. *)
Definition view_lines (x : task) : M unit :=
  print (nl +:+ str_mul "=" 50) ;;;
  print ("Task ID: " +:+ Task.id x) ;;;
  print (str_mul "=" 50) ;;;
  print ("Title: " +:+ Task.title x) ;;;
  print ("Description: " +:+ Task.description x) ;;;
  print ("Priority: " +:+ Task.priority x) ;;;
  print ("Status: " +:+ Task.status x) ;;;
  print ("Created: " +:+ Task.created_at x) ;;;
  match Task.due_date x with
  | Some d => if Py.truthy d then print ("Due Date: " +:+ d) else ret tt
  | None => ret tt
  end ;;;
  match Task.completed_at x with
  | Some c => if Py.truthy c then print ("Completed: " +:+ c) else ret tt
  | None => ret tt
  end ;;;
  match Task.tags x with
  | [] => ret tt
  | _ => print ("Tags: " +:+ Py.join ", " (Task.tags x))
  end ;;;
  print (str_mul "=" 50 +:+ nl).

Definition view_task (task_id : string) (tasks_file : string) : M bool :=
  tasks <- load_tasks tasks_file ;;
  match find_task task_id tasks with
  | Some x => view_lines x ;;; ret true
  | None =>
      print ("Task with ID " +:+ task_id +:+ " not found") ;;;
      ret false
  end.

(** ** The command line *)

(** [s.split(",")] *)
Fixpoint split_comma (s : string) : list string :=
  match s with
  | EmptyString => [""]
  | String c r =>
      if Ascii.eqb c ","
      then "" :: split_comma r
      else match split_comma r with
           | x :: xs => String c x :: xs
           | [] => [String c ""]
           end
  end.

(** [c.isspace()] for an ASCII character: tab, line feed, vertical tab,
    form feed, carriage return, the four separators 28 to 31, and space. *)
Definition is_space (c : ascii) : bool :=
  let n := nat_of_ascii c in
  (Nat.leb 9 n && Nat.leb n 13) || (Nat.leb 28 n && Nat.leb n 32).

(** [s.lstrip()], [s.rstrip()] and [s.strip()] *)
Fixpoint lstrip (s : string) : string :=
  match s with
  | EmptyString => ""
  | String c r => if is_space c then lstrip r else s
  end.

Fixpoint rstrip (s : string) : string :=
  match s with
  | EmptyString => ""
  | String c r =>
      match rstrip r with
      | EmptyString => if is_space c then "" else String c ""
      | r' => String c r'
      end
  end.

Definition strip (s : string) : string := rstrip (lstrip s).

(** [[tag.strip() for tag in s.split(",")] if s else []], the expression
    that [main] applies to the [--tags] option. *)
Definition parse_tags (s : string) : list string :=
  if Py.truthy s then map strip (split_comma s) else [].

(** The namespace that [argparse] hands to [main] for each command. *)
Inductive args : Type :=
| ArgsAdd (title description priority : string) (due : option string)
    (tags : string) (file : string)
| ArgsList (status priority tag : option string) (sort : string)
    (file : string)
| ArgsView (id : string) (file : string)
| ArgsUpdate (id : string)
    (title description priority status due tags : option string)
    (file : string)
| ArgsDelete (id : string) (file : string).

(** The [if args.command == ...] chain of [main] for a parsed command. *)
Definition dispatch (e : env) (a : args) : M unit :=
  match a with
  | ArgsAdd title description priority due tags file =>
      let tags := parse_tags tags in
      add_task e title description priority due (Some tags) file ;;; ret tt
  | ArgsList status priority tag sort file =>
      list_tasks status priority tag sort file
  | ArgsView id file => view_task id file ;;; ret tt
  | ArgsUpdate id title description priority status due tags file =>
      let tags := match tags with
                  | Some s => Some (parse_tags s)
                  | None => None
                  end in
      update_task e id title description priority status due tags file ;;;
      ret tt
  | ArgsDelete id file => delete_task id file ;;; ret tt
  end.

(** One run of the script after the other, each with its own clock reading
    and UUID. *)
Fixpoint run_all (runs : list (env * args)) : M unit :=
  match runs with
  | [] => ret tt
  | (e, a) :: r => dispatch e a ;;; run_all r
  end.

(** The file that a command works on. *)
Definition file_of (a : args) : string :=
  match a with
  | ArgsAdd _ _ _ _ _ f => f
  | ArgsList _ _ _ _ f => f
  | ArgsView _ f => f
  | ArgsUpdate _ _ _ _ _ _ _ f => f
  | ArgsDelete _ f => f
  end.

(** ** Data model invariants *)

(** The invariants of the data model: status and priority are values of
    their enums, and [completed_at] is set exactly when the status is
    "completed". *)
Definition consistent (t : task) : Prop :=
  In (Task.status t) STATUSES
  /\ In (Task.priority t) PRIORITIES
  /\ (Task.status t = "completed" <-> Task.completed_at t <> None).

(** [result] holds the tasks of [input] in ascending order of [key], tasks
    with equal keys in their input order. *)
Definition stable_ascending (key : task -> string) (input result : list task)
  : Prop :=
  Permutation input result
  /\ StronglySorted (fun x y => String.leb (key x) (key y) = true) result
  /\ (forall k,
        List.filter (fun x => String.eqb (key x) k) result
        = List.filter (fun x => String.eqb (key x) k) input).

(** The due date as the sort sees it: a null due date counts as the empty
    string. *)
Definition due_key (x : task) : string :=
  match Task.due_date x with
  | Some d => d
  | None => ""
  end.

(** A filter that [list_tasks] does not reject: it is absent, empty, or a
    value of the enum. *)
Definition accepted_filter (enum : list string) (o : option string) : bool :=
  match o with
  | Some v => negb (Py.truthy v) || valid_in enum v
  | None => true
  end.

(** A task passes all the filters that are given. *)
Definition passes (status priority tag : option string) (x : task) : bool :=
  match status with
  | Some s => negb (Py.truthy s) || String.eqb (Task.status x) (Py.lower s)
  | None => true
  end
  && match priority with
     | Some p =>
         negb (Py.truthy p) || String.eqb (Task.priority x) (Py.lower p)
     | None => true
     end
  && match tag with
     | Some g => negb (Py.truthy g) || has_tag g x
     | None => true
     end.

(** The number of commas of a text, and whether it has one. *)
Fixpoint count_commas (s : string) : nat :=
  match s with
  | EmptyString => 0
  | String c r => (if Ascii.eqb c "," then 1 else 0) + count_commas r
  end.

Definition has_comma (s : string) : bool :=
  negb (Nat.eqb (count_commas s) 0).

(** A tag as [parse_tags] yields it: no comma, and no white space at either
    end. *)
Definition clean_tag (t : string) : Prop :=
  has_comma t = false /\ strip t = t.

(** ** Basic facts *)

Lemma str_in_In (x : string) (xs : list string) :
  Py.str_in x xs = true <-> In x xs.
Proof.
  unfold Py.str_in. rewrite existsb_exists. split.
  - intros (y & Hy & E). apply String.eqb_eq in E. now subst.
  - intros H. exists x. split; [assumption | apply String.eqb_refl].
Qed.

Lemma load_tasks_fs (tasks_file : string) (w : world) :
  fs (snd (load_tasks tasks_file w)) = fs w.
Proof.
  unfold load_tasks, bind, read_file, ret, print. simpl.
  destruct (fs w !! tasks_file) as [[ts | txt] |]; reflexivity.
Qed.

Lemma load_tasks_json (tasks_file : string) (w : world) (tasks : list task) :
  fs w !! tasks_file = Some (Json tasks) ->
  load_tasks tasks_file w = (tasks, w).
Proof.
  intros H. unfold load_tasks, bind, read_file, ret. simpl. now rewrite H.
Qed.

Lemma load_tasks_run (tasks_file : string) (w : world) :
  load_tasks tasks_file w
  = (stored tasks_file w,
     mkWorld (fs w) (out w ++ corruption_report tasks_file w)).
Proof.
  destruct w as [m o].
  unfold load_tasks, stored, corruption_report, bind, read_file, ret, print.
  cbn [fst snd fs out].
  destruct (m !! tasks_file) as [[ts | txt] |]; rewrite ?app_nil_r;
    reflexivity.
Qed.

Lemma save_tasks_run (tasks : list task) (tasks_file : string) (w : world) :
  save_tasks tasks tasks_file w
  = (tt, mkWorld (<[tasks_file := Json tasks]> (fs w)) (out w)).
Proof.
  unfold save_tasks, save_tasks_steps, run_steps, bind, open_w, json_dump, ret.
  simpl. now rewrite insert_insert_eq.
Qed.

Lemma find_task_split (task_id : string) (tasks : list task) (t : task) :
  find_task task_id tasks = Some t ->
  exists l1 l2, tasks = l1 ++ t :: l2
                /\ find_task task_id l1 = None /\ Task.id t = task_id.
Proof.
  induction tasks as [| x r IH]; simpl; [discriminate |].
  destruct (String.eqb (Task.id x) task_id) eqn:E.
  - intros [= ->]. exists [], r. apply String.eqb_eq in E. now simpl.
  - intros H. destruct (IH H) as (l1 & l2 & -> & Hn & Hid).
    exists (x :: l1), l2. simpl. now rewrite E.
Qed.

Lemma find_task_app (task_id : string) (l1 l2 : list task) (t : task) :
  find_task task_id l1 = None -> Task.id t = task_id ->
  find_task task_id (l1 ++ t :: l2) = Some t.
Proof.
  intros Hn Hid. induction l1 as [| x r IH]; simpl in *.
  - subst. now rewrite String.eqb_refl.
  - destruct (String.eqb (Task.id x) task_id); [discriminate | auto].
Qed.

Lemma find_task_None (task_id : string) (tasks : list task) :
  find_task task_id tasks = None <->
  (forall t, In t tasks -> Task.id t <> task_id).
Proof.
  induction tasks as [| x r IH]; simpl.
  - split; [intros _ t [] | reflexivity].
  - destruct (String.eqb (Task.id x) task_id) eqn:E.
    + split; [discriminate |]. intros H. apply String.eqb_eq in E.
      now destruct (H x (or_introl eq_refl)).
    + apply String.eqb_neq in E. rewrite IH. split.
      * intros H t [<- | Ht]; auto.
      * intros H t Ht. apply H. now right.
Qed.

Lemma update_first_found (task_id : string) (f : task -> M task)
    (l1 l2 : list task) (t : task) (w : world) :
  find_task task_id l1 = None -> Task.id t = task_id ->
  update_first task_id f (l1 ++ t :: l2) w
  = (Some (l1 ++ fst (f t w) :: l2), snd (f t w)).
Proof.
  intros Hn Hid. induction l1 as [| x r IH]; simpl in *.
  - subst. rewrite String.eqb_refl. unfold bind, ret.
    now destruct (f t w).
  - destruct (String.eqb (Task.id x) task_id); [discriminate |].
    unfold bind, ret in *. rewrite (IH Hn). reflexivity.
Qed.

Lemma update_first_absent (task_id : string) (f : task -> M task)
    (tasks : list task) (w : world) :
  find_task task_id tasks = None ->
  update_first task_id f tasks w = (None, w).
Proof.
  induction tasks as [| x r IH]; simpl; [reflexivity |].
  destruct (String.eqb (Task.id x) task_id); [discriminate |].
  intros H. unfold bind, ret. now rewrite (IH H).
Qed.

Lemma pop_first_absent (task_id : string) (tasks : list task) :
  find_task task_id tasks = None -> pop_first task_id tasks = None.
Proof.
  induction tasks as [| x r IH]; simpl; [reflexivity |].
  destruct (String.eqb (Task.id x) task_id); [discriminate |].
  intros H. now rewrite (IH H).
Qed.

Lemma update_fields_run (e : env)
    (title description priority status due_date : option string)
    (tags : option (list string)) (t : task) (w : world) :
  update_fields e title description priority status due_date tags t w
  = (spec_update e title description priority status due_date tags t,
     mkWorld (fs w) (out w ++ field_warnings priority status)).
Proof.
  destruct t as [i ti de pr st cr du co tg]. destruct w as [m o].
  unfold update_fields, spec_update, field_warnings, valid_in, bind, ret, print.
  destruct priority as [p |]; [destruct (Py.str_in (Py.lower p) PRIORITIES) |];
  (destruct status as [s |];
   [destruct (Py.str_in (Py.lower s) STATUSES) |]);
  destruct title, description, due_date, tags; simpl;
  try destruct (String.eqb (Py.lower s) "completed");
  try destruct (String.eqb st "completed"); simpl;
  rewrite ?app_nil_r, <- ?app_assoc; try reflexivity.
Qed.

Lemma find_task_present (task_id : string) (tasks : list task) :
  (exists t, In t tasks /\ Task.id t = task_id) ->
  exists t, find_task task_id tasks = Some t.
Proof.
  intros (t & Hin & Hid).
  destruct (find_task task_id tasks) as [t0 |] eqn:E; [now exists t0 |].
  rewrite find_task_None in E. now destruct (E t Hin).
Qed.

Lemma update_task_found (e : env) (task_id : string)
    (title description priority status due_date : option string)
    (tags : option (list string)) (tasks_file : string) (w : world)
    (tasks : list task) (t : task) :
  fs w !! tasks_file = Some (Json tasks) ->
  find_task task_id tasks = Some t ->
  let t' := spec_update e title description priority status due_date tags t in
  let r := update_task e task_id title description priority status due_date
             tags tasks_file w in
  exists l1 l2,
    tasks = l1 ++ t :: l2 /\ find_task task_id l1 = None /\
    fst r = true /\
    fs (snd r) = <[tasks_file := Json (l1 ++ t' :: l2)]> (fs w) /\
    out (snd r) = out w ++ field_warnings priority status
                  ++ [Line ("Task " +:+ task_id +:+ " updated successfully")] /\
    find_task task_id (l1 ++ t' :: l2) = Some t'.
Proof.
  intros Hfs Hfind t' r.
  destruct (find_task_split _ _ _ Hfind) as (l1 & l2 & -> & Hn & Hid).
  exists l1, l2. subst r. unfold update_task, bind.
  rewrite (load_tasks_json _ _ _ Hfs).
  rewrite (update_first_found _ _ _ _ _ _ Hn Hid).
  rewrite update_fields_run. cbn [fst snd]. rewrite save_tasks_run.
  unfold print. cbn [fst snd fs out].
  fold t'. repeat split; try reflexivity; try assumption.
  - now rewrite <- app_assoc.
  - now apply find_task_app.
Qed.

Lemma add_task_run (e : env) (title description priority : string)
    (due_date : option string) (tags : option (list string))
    (tasks_file : string) (w : world) :
  let t := {|
    Task.id := Py.take_str 8 (uuid4 e);
    Task.title := title;
    Task.description := description;
    Task.priority :=
      if valid_in PRIORITIES priority then Py.lower priority else "medium";
    Task.status := "pending";
    Task.created_at := now e;
    Task.due_date := due_date;
    Task.completed_at := None;
    Task.tags := match tags with Some l => l | None => [] end
  |} in
  let l := load_tasks tasks_file w in
  add_task e title description priority due_date tags tasks_file w
  = (Task.id t,
     mkWorld (<[tasks_file := Json (fst l ++ [t])]> (fs w))
       (out (snd l)
        ++ (if valid_in PRIORITIES priority then []
            else [Line ("Invalid priority: " +:+ priority
                        +:+ ". Using 'medium' instead.")])
        ++ [Line ("Task added with ID: " +:+ Py.take_str 8 (uuid4 e))])).
Proof.
  intros t l. pose proof (load_tasks_fs tasks_file w) as Hfs. fold l in Hfs.
  unfold add_task, bind. subst t. fold l. destruct l as [ts w']. simpl in Hfs.
  unfold valid_in.
  destruct (Py.str_in (Py.lower priority) PRIORITIES) eqn:E;
    cbn [negb]; unfold ret, print; cbn [fst snd fs out Task.id];
    rewrite ?E, save_tasks_run; cbn [fst snd fs out]; rewrite Hfs.
  - f_equal. f_equal. f_equal. f_equal. now destruct tags as [[| x r] |].
  - rewrite <- app_assoc. cbn [app].
    f_equal. f_equal. f_equal. f_equal. now destruct tags as [[| x r] |].
Qed.

Section SortedFacts.
Context {A : Type} (before : A -> A -> bool).

Lemma insert_sorted_perm (x : A) (l : list A) :
  Permutation (x :: l) (Py.insert_sorted before x l).
Proof.
  induction l as [| y r IH]; simpl; [reflexivity |].
  destruct (before x y); [reflexivity |].
  rewrite perm_swap. now apply perm_skip.
Qed.

Lemma sorted_perm (l : list A) : Permutation l (Py.sorted before l).
Proof.
  induction l as [| x r IH]; simpl; [constructor |].
  rewrite <- insert_sorted_perm. now apply perm_skip.
Qed.
End SortedFacts.

Section ReverseSortByKey.
Context {A : Type} (key : A -> nat).

Let before (x y : A) : bool := Nat.leb (key y) (key x).
Let desc (x y : A) : Prop := key y <= key x.

Lemma insert_sorted_desc (x : A) (l : list A) :
  StronglySorted desc l -> StronglySorted desc (Py.insert_sorted before x l).
Proof.
  induction 1 as [| y r Hr IH Hy]; simpl.
  - repeat constructor.
  - unfold before at 1. destruct (Nat.leb (key y) (key x)) eqn:E.
    + apply Nat.leb_le in E. constructor; [now constructor |].
      constructor; [exact E |].
      eapply List.Forall_impl; [| exact Hy]. unfold desc. intros z Hz. lia.
    + apply Nat.leb_gt in E. constructor; [exact IH |].
      apply (Permutation_Forall (insert_sorted_perm before x r)).
      constructor; [unfold desc; lia | exact Hy].
Qed.

Lemma sorted_desc (l : list A) : StronglySorted desc (Py.sorted before l).
Proof.
  induction l as [| x r IH]; simpl; [constructor |].
  now apply insert_sorted_desc.
Qed.

Lemma insert_sorted_stable (k : nat) (x : A) (l : list A) :
  List.filter (fun z => Nat.eqb (key z) k) (Py.insert_sorted before x l)
  = List.filter (fun z => Nat.eqb (key z) k) (x :: l).
Proof.
  induction l as [| y r IH]; [reflexivity |].
  cbn [Py.insert_sorted]. unfold before at 1.
  destruct (Nat.leb (key y) (key x)) eqn:E; [reflexivity |].
  apply Nat.leb_gt in E. cbn [List.filter] in *. rewrite IH.
  destruct (Nat.eqb (key y) k) eqn:Ey, (Nat.eqb (key x) k) eqn:Ex; try reflexivity.
  apply Nat.eqb_eq in Ey, Ex. lia.
Qed.

Lemma sorted_stable (k : nat) (l : list A) :
  List.filter (fun z => Nat.eqb (key z) k) (Py.sorted before l)
  = List.filter (fun z => Nat.eqb (key z) k) l.
Proof.
  induction l as [| x r IH]; [reflexivity |].
  cbn [Py.sorted]. rewrite insert_sorted_stable. cbn [List.filter].
  now rewrite IH.
Qed.
End ReverseSortByKey.

Lemma filter_filter_implied {A : Type} (f g : A -> bool) (l : list A) :
  (forall x, f x = true -> g x = true) ->
  List.filter f (List.filter g l) = List.filter f l.
Proof.
  intros H. induction l as [| x r IH]; [reflexivity |]. cbn [List.filter].
  destruct (g x) eqn:Eg; cbn [List.filter].
  - now rewrite IH.
  - destruct (f x) eqn:Ef; [| exact IH]. rewrite (H x Ef) in Eg. discriminate.
Qed.

Lemma truthy_nonempty (s : string) : s <> "" -> Py.truthy s = true.
Proof.
  intros H. unfold Py.truthy. apply String.eqb_neq in H. now rewrite H.
Qed.

Lemma select_tasks_rejects (status priority tag : option string)
    (sort_by : string) (tasks : list task) :
  rejected_filter STATUSES status \/ rejected_filter PRIORITIES priority ->
  exists msg,
    select_tasks status priority tag sort_by tasks = inl msg
    /\ ((exists s, status = Some s /\ msg = "Invalid status: " +:+ s)
        \/ (exists p, priority = Some p /\ msg = "Invalid priority: " +:+ p)).
Proof.
  intros [(s & -> & Hs & Hv) | (p & -> & Hp & Hv)].
  - exists ("Invalid status: " +:+ s). split; [| left; now exists s].
    unfold select_tasks. unfold valid_in in Hv.
    now rewrite (truthy_nonempty s Hs), Hv.
  - unfold valid_in in Hv. unfold select_tasks.
    rewrite (truthy_nonempty p Hp), Hv. cbn [negb].
    destruct status as [s |].
    + destruct (Py.truthy s).
      * destruct (negb (Py.str_in (Py.lower s) STATUSES)).
        -- exists ("Invalid status: " +:+ s). split; [| left; now exists s].
           reflexivity.
        -- exists ("Invalid priority: " +:+ p).
           split; [| right; now exists p]. reflexivity.
      * exists ("Invalid priority: " +:+ p).
        split; [| right; now exists p]. reflexivity.
    + exists ("Invalid priority: " +:+ p).
      split; [| right; now exists p]. reflexivity.
Qed.

Lemma lower_enum_status (x : task) :
  In (Task.status x) STATUSES -> Py.lower (Task.status x) = Task.status x.
Proof.
  intros H. repeat (destruct H as [<- | H]; [reflexivity |]). destruct H.
Qed.

Lemma matches_both_iff (s g : string) (x : task) :
  matches_both s g x = true <->
  Py.lower (Task.status x) = Py.lower s
  /\ exists tg, In tg (Task.tags x) /\ Py.lower tg = Py.lower g.
Proof.
  unfold matches_both. rewrite andb_true_iff, String.eqb_eq, existsb_exists.
  split; intros [H (tg & Hin & Htg)]; (split; [exact H | exists tg]);
    (split; [exact Hin |]); now apply String.eqb_eq.
Qed.

Lemma has_tag_existsb (g : string) (x : task) :
  has_tag g x
  = existsb (fun tg => String.eqb (Py.lower tg) (Py.lower g)) (Task.tags x).
Proof.
  unfold has_tag, Py.str_in. induction (Task.tags x) as [| a r IH];
    [reflexivity |].
  cbn [map existsb]. rewrite IH. f_equal. apply String.eqb_sym.
Qed.

Lemma filter_ext_Forall {A : Type} (P : A -> Prop) (f g : A -> bool)
    (l : list A) :
  Forall P l -> (forall x, P x -> f x = g x) ->
  List.filter f l = List.filter g l.
Proof.
  intros Hl H. induction Hl as [| x r Hx Hr IH]; [reflexivity |].
  cbn [List.filter]. now rewrite (H x Hx), IH.
Qed.

Lemma filter_none {A : Type} (f : A -> bool) (l : list A) :
  (forall x, In x l -> f x = false) -> List.filter f l = [].
Proof.
  induction l as [| x r IH]; [reflexivity |]. intros H. cbn [List.filter].
  rewrite (H x (or_introl eq_refl)). apply IH. intros y Hy. apply H.
  now right.
Qed.

Lemma filter_filter_andb {A : Type} (f g : A -> bool) (l : list A) :
  List.filter f (List.filter g l) = List.filter (fun x => g x && f x) l.
Proof.
  induction l as [| x r IH]; [reflexivity |]. cbn [List.filter].
  destruct (g x); cbn [List.filter andb]; [| exact IH].
  destruct (f x); now rewrite IH.
Qed.

Lemma sort_tasks_perm (sort_by : string) (tasks : list task) :
  Permutation tasks (sort_tasks sort_by tasks).
Proof.
  unfold sort_tasks.
  destruct (Py.str_in sort_by ["created_at"; "due_date"; "priority"]);
    [| reflexivity].
  destruct (String.eqb sort_by "priority"); apply sorted_perm.
Qed.

(** ** Properties of the store *)

(** C9: [add_task] returns an id on every input.  The new task is pending,
    has a null [completed_at] and the current time as [created_at]; its
    priority is the given one in lower case, or "medium" with a printed
    warning when the given one is not in the enum; it is appended to the
    collection that the tasks file holds, the result is persisted in that
    file, and its id is returned. *)
Theorem add_task_never_rejects (e : env) (title description priority : string)
    (due_date : option string) (tags : option (list string))
    (tasks_file : string) (w : world) :
  let r := add_task e title description priority due_date tags tasks_file w in
  exists t,
    fst r = Task.id t /\
    fs (snd r) !! tasks_file = Some (Json (stored tasks_file w ++ [t])) /\
    (forall tasks,
       fs w !! tasks_file = Some (Json tasks) ->
       fs (snd r) !! tasks_file = Some (Json (tasks ++ [t]))) /\
    Task.title t = title /\
    Task.description t = description /\
    Task.status t = "pending" /\
    Task.completed_at t = None /\
    Task.created_at t = now e /\
    Task.due_date t = due_date /\
    Task.tags t = match tags with Some l => l | None => [] end /\
    In (Task.priority t) PRIORITIES /\
    (if valid_in PRIORITIES priority
     then Task.priority t = Py.lower priority /\
          out (snd r)
          = out w ++ corruption_report tasks_file w
            ++ [Line ("Task added with ID: " +:+ Task.id t)]
     else Task.priority t = "medium" /\
          out (snd r)
          = out w ++ corruption_report tasks_file w
            ++ [Line ("Invalid priority: " +:+ priority
                      +:+ ". Using 'medium' instead.");
                Line ("Task added with ID: " +:+ Task.id t)]).
Proof.
  intros r. subst r. rewrite add_task_run, load_tasks_run.
  eexists. cbn [fst snd fs out].
  split; [reflexivity |]. split; [apply lookup_insert_eq |].
  split.
  { intros tasks H. rewrite lookup_insert_eq. unfold stored. now rewrite H. }
  cbn [Task.title Task.description Task.status Task.completed_at
       Task.created_at Task.due_date Task.tags Task.priority Task.id].
  repeat match goal with |- _ /\ _ => split end; try reflexivity.
  - destruct (valid_in PRIORITIES priority) eqn:E.
    + now apply str_in_In.
    + right. now left.
  - destruct (valid_in PRIORITIES priority); split; try reflexivity;
      now rewrite <- !app_assoc.
Qed.

(** C4: for an id that no task of the collection has, [update_task] and
    [delete_task] both return false and leave the file system as it was;
    neither loop touches the collection. *)
Theorem absent_id_leaves_storage_unchanged (e : env) (task_id : string)
    (title description priority status due_date : option string)
    (tags : option (list string)) (tasks_file : string) (w : world) :
  (forall t, In t (fst (load_tasks tasks_file w)) -> Task.id t <> task_id) ->
  let tasks := fst (load_tasks tasks_file w) in
  let f := update_fields e title description priority status due_date tags in
  let u := update_task e task_id title description priority status due_date
             tags tasks_file w in
  let d := delete_task task_id tasks_file w in
  (fst u = false /\ fs (snd u) = fs w
   /\ fst (update_first task_id f tasks (snd (load_tasks tasks_file w))) = None)
  /\ (fst d = false /\ fs (snd d) = fs w /\ pop_first task_id tasks = None).
Proof.
  intros H tasks f u d. apply find_task_None in H. fold tasks in H.
  pose proof (load_tasks_fs tasks_file w) as Hfs.
  subst u d. unfold update_task, delete_task, bind.
  destruct (load_tasks tasks_file w) as [ts w'] eqn:El. simpl in *.
  subst tasks f. rewrite (update_first_absent _ _ _ _ H).
  rewrite (pop_first_absent _ _ H). simpl. auto.
Qed.

Lemma absent_id_leaves_storage_unchanged_witness :
  (forall t, In t (fst (load_tasks "tasks.json" sample_world)) ->
             Task.id t <> "ffffffff")
  /\ fst (update_task sample_env "ffffffff" (Some "x") None None None None
            None "tasks.json" sample_world) = false
  /\ fst (delete_task "ffffffff" "tasks.json" sample_world) = false.
Proof.
  assert (H : forall t, In t (fst (load_tasks "tasks.json" sample_world)) ->
                        Task.id t <> "ffffffff").
  { intros t Hin. vm_compute in Hin.
    destruct Hin as [<- | [<- | []]]; discriminate. }
  split; [exact H |].
  destruct (absent_id_leaves_storage_unchanged sample_env "ffffffff"
              (Some "x") None None None None None "tasks.json" sample_world H)
    as [(Hu & _) (Hd & _)].
  split; assumption.
Defined.

(** C5: when [update_task] finds the task, it returns true and persists the
    collection with that task replaced; every provided field is applied on
    its own, a priority or status outside its enum leaves that field alone
    and prints its warning, and what is not provided stays as it was. *)
Theorem update_applies_each_field (e : env) (task_id : string)
    (title description priority status due_date : option string)
    (tags : option (list string)) (tasks_file : string) (w : world)
    (tasks : list task) (t : task) :
  fs w !! tasks_file = Some (Json tasks) ->
  find_task task_id tasks = Some t ->
  let r := update_task e task_id title description priority status due_date
             tags tasks_file w in
  exists l1 l2 t',
    tasks = l1 ++ t :: l2 /\ find_task task_id l1 = None /\
    fst r = true /\
    fs (snd r) !! tasks_file = Some (Json (l1 ++ t' :: l2)) /\
    out (snd r) = out w ++ field_warnings priority status
                  ++ [Line ("Task " +:+ task_id +:+ " updated successfully")] /\
    field_applied title (Task.title t) (Task.title t') /\
    field_applied description (Task.description t) (Task.description t') /\
    enum_applied PRIORITIES priority (Task.priority t) (Task.priority t') /\
    enum_applied STATUSES status (Task.status t) (Task.status t') /\
    field_applied (option_map Some due_date) (Task.due_date t)
      (Task.due_date t') /\
    field_applied tags (Task.tags t) (Task.tags t') /\
    Task.id t' = Task.id t /\
    Task.created_at t' = Task.created_at t /\
    (match status with
     | Some s => valid_in STATUSES s = false
     | None => True
     end -> Task.completed_at t' = Task.completed_at t).
Proof.
  intros Hfs Hfind r.
  destruct (update_task_found e task_id title description priority status
              due_date tags tasks_file w tasks t Hfs Hfind)
    as (l1 & l2 & Htasks & Hn & Hret & Hstore & Hout & _).
  exists l1, l2,
    (spec_update e title description priority status due_date tags t).
  fold r in Hret, Hstore, Hout.
  repeat match goal with |- _ /\ _ => split end; try assumption.
  - rewrite Hstore. apply lookup_insert_eq.
  - now destruct title.
  - now destruct description.
  - unfold enum_applied, spec_update. cbn [Task.priority].
    destruct priority as [p |]; [| reflexivity].
    now destruct (valid_in PRIORITIES p).
  - unfold enum_applied, spec_update. cbn [Task.status].
    destruct status as [s |]; [| reflexivity].
    now destruct (valid_in STATUSES s).
  - now destruct due_date.
  - now destruct tags.
  - reflexivity.
  - reflexivity.
  - unfold spec_update. cbn [Task.completed_at].
    destruct status as [s |]; [| reflexivity]. now intros ->.
Qed.

Lemma update_applies_each_field_witness :
  fs sample_world !! "tasks.json" = Some (Json [milk; report])
  /\ find_task "abc123de" [milk; report] = Some milk
  /\ fst (update_task sample_env "abc123de" (Some "Buy oat milk") None
            (Some "urgent") (Some "In_Progress") None None "tasks.json"
            sample_world) = true.
Proof.
  assert (Hfs : fs sample_world !! "tasks.json" = Some (Json [milk; report]))
    by (vm_compute; reflexivity).
  assert (Hfind : find_task "abc123de" [milk; report] = Some milk)
    by reflexivity.
  split; [exact Hfs | split; [exact Hfind |]].
  destruct (update_applies_each_field sample_env "abc123de"
              (Some "Buy oat milk") None (Some "urgent") (Some "In_Progress")
              None None "tasks.json" sample_world [milk; report] milk
              Hfs Hfind)
    as (l1 & l2 & t' & _ & _ & Hret & _).
  exact Hret.
Defined.

(** C10: for a task that the store holds, [update_task] with the title
    given as the empty string returns true and persists the collection with
    that task's title empty; nothing checks the new title. *)
Theorem update_accepts_empty_title (e : env) (task_id : string)
    (description priority status due_date : option string)
    (tags : option (list string)) (tasks_file : string) (w : world)
    (tasks : list task) :
  fs w !! tasks_file = Some (Json tasks) ->
  (exists t, In t tasks /\ Task.id t = task_id) ->
  let r := update_task e task_id (Some "") description priority status
             due_date tags tasks_file w in
  fst r = true /\
  exists tasks' t',
    fs (snd r) !! tasks_file = Some (Json tasks') /\
    length tasks' = length tasks /\
    find_task task_id tasks' = Some t' /\
    Task.title t' = "".
Proof.
  intros Hfs Hin r. destruct (find_task_present _ _ Hin) as [t Hfind].
  destruct (update_task_found e task_id (Some "") description priority status
              due_date tags tasks_file w tasks t Hfs Hfind)
    as (l1 & l2 & -> & Hn & Hret & Hstore & _ & Hfound).
  fold r in Hret, Hstore. split; [exact Hret |].
  eexists _, _. rewrite Hstore, lookup_insert_eq.
  repeat split; [| exact Hfound | reflexivity].
  rewrite !length_app. reflexivity.
Qed.

Lemma update_accepts_empty_title_witness :
  fs sample_world !! "tasks.json" = Some (Json [milk; report])
  /\ (exists t, In t [milk; report] /\ Task.id t = "0f1e2d3c")
  /\ fst (update_task sample_env "0f1e2d3c" (Some "") None None None None
            None "tasks.json" sample_world) = true.
Proof.
  assert (Hfs : fs sample_world !! "tasks.json" = Some (Json [milk; report]))
    by (vm_compute; reflexivity).
  assert (Hin : exists t, In t [milk; report] /\ Task.id t = "0f1e2d3c").
  { exists report. split; [right; left |]; reflexivity. }
  split; [exact Hfs | split; [exact Hin |]].
  exact (proj1 (update_accepts_empty_title sample_env "0f1e2d3c" None None
                  None None None "tasks.json" sample_world [milk; report]
                  Hfs Hin)).
Defined.

(** C1, as the code has it: an update of a task of the store to a status
    that reads "completed" leaves it completed.  Its [completed_at] is the
    current time when the status was another one before, and is left as it
    was when the task was completed already; so it is not null for a task
    that was not yet completed or that already had a [completed_at], and a
    null [completed_at] of a completed task stays null.  A following update
    of the same task to any other valid status, "pending" among them, sets
    [completed_at] to null. *)
Theorem status_completed_at_coupling (e1 e2 : env) (task_id s1 s2 : string)
    (title1 description1 priority1 due_date1 : option string)
    (tags1 : option (list string))
    (title2 description2 priority2 due_date2 : option string)
    (tags2 : option (list string))
    (tasks_file : string) (w : world) (tasks : list task) (t : task) :
  fs w !! tasks_file = Some (Json tasks) ->
  find_task task_id tasks = Some t ->
  Py.lower s1 = "completed" ->
  valid_in STATUSES s2 = true -> Py.lower s2 <> "completed" ->
  let r1 := update_task e1 task_id title1 description1 priority1 (Some s1)
              due_date1 tags1 tasks_file w in
  let r2 := update_task e2 task_id title2 description2 priority2 (Some s2)
              due_date2 tags2 tasks_file (snd r1) in
  exists tasks1 t1 tasks2 t2,
    (fst r1 = true /\
     fs (snd r1) !! tasks_file = Some (Json tasks1) /\
     find_task task_id tasks1 = Some t1 /\
     Task.status t1 = "completed" /\
     (Task.status t <> "completed" -> Task.completed_at t1 = Some (now e1)) /\
     (Task.status t = "completed" ->
      Task.completed_at t1 = Task.completed_at t) /\
     (Task.status t <> "completed" \/ Task.completed_at t <> None ->
      Task.completed_at t1 <> None))
    /\
    (fst r2 = true /\
     fs (snd r2) !! tasks_file = Some (Json tasks2) /\
     find_task task_id tasks2 = Some t2 /\
     Task.status t2 = Py.lower s2 /\
     Task.completed_at t2 = None).
Proof.
  intros Hfs Hfind Hs1 Hs2 Hs2' r1 r2.
  destruct (update_task_found e1 task_id title1 description1 priority1
              (Some s1) due_date1 tags1 tasks_file w tasks t Hfs Hfind)
    as (l1 & l2 & -> & Hn & Hret1 & Hstore1 & _ & Hfound1).
  fold r1 in Hret1, Hstore1.
  set (t1 := spec_update e1 title1 description1 priority1 (Some s1)
               due_date1 tags1 t) in *.
  assert (Hfs1 : fs (snd r1) !! tasks_file = Some (Json (l1 ++ t1 :: l2)))
    by (rewrite Hstore1; apply lookup_insert_eq).
  destruct (update_task_found e2 task_id title2 description2 priority2
              (Some s2) due_date2 tags2 tasks_file (snd r1) _ t1 Hfs1 Hfound1)
    as (k1 & k2 & Hk & Hkn & Hret2 & Hstore2 & _ & Hfound2).
  fold r2 in Hret2, Hstore2.
  set (t2 := spec_update e2 title2 description2 priority2 (Some s2)
               due_date2 tags2 t1) in *.
  assert (Hv1 : valid_in STATUSES s1 = true)
    by (unfold valid_in; rewrite Hs1; reflexivity).
  exists (l1 ++ t1 :: l2), t1, (k1 ++ t2 :: k2), t2.
  split; repeat match goal with |- _ /\ _ => split end;
    try assumption.
  - subst t1. unfold spec_update. cbn [Task.status]. now rewrite Hv1.
  - intros Hst. subst t1. unfold spec_update. cbn [Task.completed_at].
    rewrite Hv1, Hs1. apply String.eqb_neq in Hst. now rewrite Hst.
  - intros Hst. subst t1. unfold spec_update. cbn [Task.completed_at].
    rewrite Hv1, Hs1, Hst. reflexivity.
  - intros Hpre. subst t1. unfold spec_update. cbn [Task.completed_at].
    rewrite Hv1, Hs1. cbn [String.eqb Ascii.eqb Bool.eqb].
    destruct (String.eqb (Task.status t) "completed") eqn:Et; [| discriminate].
    apply String.eqb_eq in Et. now destruct Hpre.
  - rewrite Hstore2. apply lookup_insert_eq.
  - subst t2. unfold spec_update. cbn [Task.status]. now rewrite Hs2.
  - subst t2. unfold spec_update. cbn [Task.completed_at]. rewrite Hs2.
    apply String.eqb_neq in Hs2'. now rewrite Hs2'.
Qed.

Lemma status_completed_at_coupling_witness :
  fs sample_world !! "tasks.json" = Some (Json [milk; report])
  /\ find_task "abc123de" [milk; report] = Some milk
  /\ exists tasks2 t2,
       fs (snd (update_task later_env "abc123de" None None None
                  (Some "pending") None None "tasks.json"
                  (snd (update_task sample_env "abc123de" None None None
                          (Some "Completed") None None "tasks.json"
                          sample_world)))) !! "tasks.json"
       = Some (Json tasks2)
       /\ find_task "abc123de" tasks2 = Some t2
       /\ Task.completed_at t2 = None.
Proof.
  assert (Hfs : fs sample_world !! "tasks.json" = Some (Json [milk; report]))
    by (vm_compute; reflexivity).
  assert (Hfind : find_task "abc123de" [milk; report] = Some milk)
    by reflexivity.
  split; [exact Hfs | split; [exact Hfind |]].
  destruct (status_completed_at_coupling sample_env later_env "abc123de"
              "Completed" "pending" None None None None None
              None None None None None "tasks.json" sample_world
              [milk; report] milk Hfs Hfind)
    as (tasks1 & t1 & tasks2 & t2 & _ & (_ & H2 & H3 & _ & H4)).
  - reflexivity.
  - reflexivity.
  - discriminate.
  - exists tasks2, t2. auto.
Defined.

(** C1 fails as stated: [stale] is completed with a null [completed_at];
    [update_task] with status "completed" finds it, returns true, and the
    stored task still has a null [completed_at]. *)
Lemma completed_update_keeps_null_completed_at :
  find_task "a1b2c3d4" [stale] = Some stale
  /\ fs stale_world !! "tasks.json" = Some (Json [stale])
  /\ fst (update_task sample_env "a1b2c3d4" None None None (Some "completed")
            None None "tasks.json" stale_world) = true
  /\ fs (snd (update_task sample_env "a1b2c3d4" None None None
                (Some "completed") None None "tasks.json" stale_world))
       !! "tasks.json" = Some (Json [stale])
  /\ Task.completed_at stale = None.
Proof. vm_compute. repeat split; reflexivity. Qed.

(** C3 fails on the code: the id of a new task is the first eight
    characters of the UUID drawn, whatever the collection holds.  Two
    different UUIDs with the same first eight characters give two tasks with
    one id; the same happens when the first task was deleted in between. *)
Theorem add_task_can_repeat_an_id :
  let w0 := mkWorld ∅ [] in
  let a1 := add_task sample_env "Buy milk" "" "high" None None "tasks.json"
              w0 in
  let a2 := add_task later_env "Pay rent" "" "low" None None "tasks.json"
              (snd a1) in
  let d := delete_task (fst a1) "tasks.json" (snd a1) in
  let a3 := add_task later_env "Pay rent" "" "low" None None "tasks.json"
              (snd d) in
  uuid4 sample_env <> uuid4 later_env
  /\ fst a1 = "9b2d4f6a" /\ fst a2 = "9b2d4f6a"
  /\ (exists t1 t2,
        fs (snd a2) !! "tasks.json" = Some (Json [t1; t2])
        /\ Task.title t1 = "Buy milk" /\ Task.title t2 = "Pay rent"
        /\ Task.id t1 = Task.id t2)
  /\ fst d = true
  /\ fs (snd d) !! "tasks.json" = Some (Json [])
  /\ fst a3 = fst a1.
Proof.
  vm_compute. repeat split; try reflexivity; try discriminate.
  eexists _, _. repeat split; reflexivity.
Qed.

(** C2 fails as stated: while [save_tasks] replaces the collection
    [[milk; report]] by [[milk]], the tasks file is first seen with the old
    content, then empty, then with the new content. *)
Lemma save_tasks_shows_an_empty_file :
  map (fun x => fs x !! "tasks.json")
      (visible (save_tasks_steps [milk] "tasks.json") sample_world)
  = [Some (Json [milk; report]); Some (Unparsable ""); Some (Json [milk])].
Proof. vm_compute. reflexivity. Qed.

(** C2, as the code has it: [save_tasks] run to its end leaves the tasks
    file with the full collection, whatever it held before, and touches no
    other path and prints nothing; on the way the file is opened for
    writing, which empties it, before the collection is written. *)
Theorem save_tasks_replaces_after_truncating (tasks : list task)
    (tasks_file : string) (w : world) :
  let r := save_tasks tasks tasks_file w in
  let seen := visible (save_tasks_steps tasks tasks_file) w in
  fs (snd r) !! tasks_file = Some (Json tasks)
  /\ (forall p, p <> tasks_file -> fs (snd r) !! p = fs w !! p)
  /\ out (snd r) = out w
  /\ map (fun x => fs x !! tasks_file) seen
     = [fs w !! tasks_file; Some (Unparsable ""); Some (Json tasks)]
  /\ List.last seen w = snd r.
Proof.
  intros r seen. subst r seen. rewrite save_tasks_run.
  cbn [fst snd fs out visible save_tasks_steps map open_w json_dump
       List.last].
  repeat split.
  - apply lookup_insert_eq.
  - intros p Hp. now apply lookup_insert_ne.
  - now rewrite !lookup_insert_eq.
  - now rewrite insert_insert_eq.
Qed.

(** ** Properties of the query engine *)

(** C6, as the code has it: a status or priority filter value that is not
    empty and is outside its enum makes [list_tasks] reject the whole
    query: it prints the error line and nothing else, shows no table, and
    leaves the file system alone. *)
Theorem invalid_filter_rejects_query (status priority tag : option string)
    (sort_by tasks_file : string) (w : world) :
  rejected_filter STATUSES status \/ rejected_filter PRIORITIES priority ->
  let l := load_tasks tasks_file w in
  let r := list_tasks status priority tag sort_by tasks_file w in
  exists msg,
    select_tasks status priority tag sort_by (fst l) = inl msg
    /\ returned (select_tasks status priority tag sort_by (fst l)) = []
    /\ ((exists s, status = Some s /\ msg = "Invalid status: " +:+ s)
        \/ (exists p, priority = Some p /\ msg = "Invalid priority: " +:+ p))
    /\ out (snd r) = out (snd l) ++ [Line msg]
    /\ fs (snd r) = fs w.
Proof.
  intros H l r.
  destruct (select_tasks_rejects status priority tag sort_by (fst l) H)
    as (msg & Hsel & Hmsg).
  exists msg. pose proof (load_tasks_fs tasks_file w) as Hfs. fold l in Hfs.
  subst r. unfold list_tasks, bind. fold l.
  destruct l as [ts w']. cbn [fst snd] in *. rewrite Hsel.
  repeat split; try assumption; reflexivity.
Qed.

Lemma invalid_filter_rejects_query_witness :
  rejected_filter STATUSES (Some "bogus")
  /\ out (snd (list_tasks (Some "bogus") None None "created_at" "tasks.json"
                 sample_world))
     = [Line "Invalid status: bogus"].
Proof.
  assert (H : rejected_filter STATUSES (Some "bogus")).
  { exists "bogus". split; [reflexivity | split; [discriminate | reflexivity]]. }
  split; [exact H |].
  destruct (invalid_filter_rejects_query (Some "bogus") None None "created_at"
              "tasks.json" sample_world (or_introl H))
    as (msg & _ & _ & [(s & Hs & ->) | (p & Hp & _)] & Hout & _).
  - injection Hs as <-. exact Hout.
  - discriminate Hp.
Defined.

(** C6 fails as stated: the empty string is outside the status enum, and
    [list_tasks] with the status filter [""] rejects nothing: it shows
    every task of the collection. *)
Lemma empty_status_filter_lists_everything :
  valid_in STATUSES "" = false
  /\ select_tasks (Some "") None None "created_at" [milk; report]
     = inr [milk; report]
  /\ out (snd (list_tasks (Some "") None None "created_at" "tasks.json"
                 sample_world))
     = [Table ["ID"; "Title"; "Description"; "Priority"; "Status";
               "Due Date"; "Tags"]
              [table_row milk; table_row report];
        Line (nl +:+ "Total: 2 tasks" +:+ nl)].
Proof. vm_compute. repeat split; reflexivity. Qed.

Lemma priority_key_severity (x : task) :
  priority_key x = severity (Task.priority x).
Proof.
  unfold priority_key, priority_order, severity, PRIORITIES.
  cbn [index_from].
  destruct (String.eqb_spec "low" (Task.priority x)) as [<- | H1];
    [reflexivity |].
  destruct (String.eqb_spec "medium" (Task.priority x)) as [<- | H2];
    [reflexivity |].
  destruct (String.eqb_spec "high" (Task.priority x)) as [<- | H3];
    [reflexivity |].
  destruct (String.eqb_spec "critical" (Task.priority x)) as [<- | H4];
    [reflexivity |].
  destruct (String.eqb_spec (Task.priority x) "critical") as [E | _];
    [now destruct H4 |].
  destruct (String.eqb_spec (Task.priority x) "high") as [E | _];
    [now destruct H3 |].
  destruct (String.eqb_spec (Task.priority x) "medium") as [E | _];
    [now destruct H2 |].
  reflexivity.
Qed.

Lemma sorted_ext {A : Type} (b1 b2 : A -> A -> bool) (l : list A) :
  (forall x y, b1 x y = b2 x y) -> Py.sorted b1 l = Py.sorted b2 l.
Proof.
  intros H. induction l as [| x r IH]; [reflexivity |].
  cbn [Py.sorted]. rewrite IH. generalize (Py.sorted b2 r). intros l.
  induction l as [| y l IHl]; [reflexivity |].
  cbn [Py.insert_sorted]. now rewrite H, IHl.
Qed.

(** C7: sorting by priority gives the same tasks, ordered by decreasing
    severity, where critical is above high, high above medium and medium
    above low; tasks of the same priority keep the order they had in the
    input.  On priorities low, critical, medium, critical the two critical
    tasks come first, in their input order, then medium, then low. *)
Theorem priority_sort_descending_stable (tasks : list task) :
  let result := sort_tasks "priority" tasks in
  select_tasks None None None "priority" tasks = inr result
  /\ Permutation tasks result
  /\ StronglySorted
       (fun x y => severity (Task.priority y) <= severity (Task.priority x))
       result
  /\ (severity "low" < severity "medium"
      /\ severity "medium" < severity "high"
      /\ severity "high" < severity "critical")
  /\ (forall k,
        List.filter (fun x => Nat.eqb (severity (Task.priority x)) k) result
        = List.filter (fun x => Nat.eqb (severity (Task.priority x)) k) tasks)
  /\ StronglySorted (fun x y => priority_key y <= priority_key x) result
  /\ (forall k,
        List.filter (fun x => Nat.eqb (priority_key x) k) result
        = List.filter (fun x => Nat.eqb (priority_key x) k) tasks)
  /\ (forall p,
        List.filter (fun x => String.eqb (Task.priority x) p) result
        = List.filter (fun x => String.eqb (Task.priority x) p) tasks)
  /\ map priority_order ["low"; "medium"; "high"; "critical"]
     = [Some 0; Some 1; Some 2; Some 3]
  /\ map Task.id (sort_tasks "priority" four_tasks) = ["t2"; "t4"; "t3"; "t1"]
  /\ map Task.id (sort_tasks "priority" six_tasks)
     = ["u4"; "u2"; "u5"; "u1"; "u6"; "u3"].
Proof.
  intros result.
  assert (E : result
              = Py.sorted (fun x y => Nat.leb (priority_key y) (priority_key x))
                  tasks) by reflexivity.
  assert (E' : result
               = Py.sorted
                   (fun x y => Nat.leb (severity (Task.priority y))
                                 (severity (Task.priority x))) tasks).
  { rewrite E. apply sorted_ext. intros x y.
    now rewrite !priority_key_severity. }
  repeat match goal with |- _ /\ _ => split end; try reflexivity.
  - rewrite E. apply sorted_perm.
  - rewrite E'. apply (sorted_desc (fun x => severity (Task.priority x))).
  - cbn. lia.
  - cbn. lia.
  - cbn. lia.
  - intros k. rewrite E'.
    apply (sorted_stable (fun x => severity (Task.priority x))).
  - rewrite E. apply (sorted_desc priority_key).
  - intros k. rewrite E. apply (sorted_stable priority_key).
  - intros p. rewrite E.
    set (fp := fun x : task => String.eqb (Task.priority x) p).
    set (gp := fun x : task =>
                 Nat.eqb (priority_key x)
                   match priority_order p with Some i => i | None => 0 end).
    assert (Himp : forall x, fp x = true -> gp x = true).
    { intros x Hx. unfold fp, gp, priority_key in *.
      apply String.eqb_eq in Hx. rewrite Hx. apply Nat.eqb_refl. }
    rewrite <- (filter_filter_implied fp gp _ Himp).
    rewrite <- (filter_filter_implied fp gp tasks Himp).
    unfold gp. now rewrite (sorted_stable priority_key).
Qed.

(** C8, as the code has it: on a collection whose tasks have their status
    in the enum, a query with a status filter and a tag filter that are both
    not empty returns exactly the tasks whose status equals the status
    filter and that have a tag equal to the tag filter, letter case apart in
    both comparisons. *)
Theorem status_and_tag_filters_conjoin (s g sort_by : string)
    (tasks : list task) :
  s <> "" -> g <> "" ->
  Forall (fun x => In (Task.status x) STATUSES) tasks ->
  let result := returned (select_tasks (Some s) None (Some g) sort_by tasks) in
  Permutation result (List.filter (matches_both s g) tasks)
  /\ (forall x,
        In x result <->
        In x tasks
        /\ Py.lower (Task.status x) = Py.lower s
        /\ exists tg, In tg (Task.tags x) /\ Py.lower tg = Py.lower g).
Proof.
  intros Hs Hg Hall result.
  assert (Hperm : Permutation result (List.filter (matches_both s g) tasks)).
  { subst result. unfold select_tasks.
    rewrite (truthy_nonempty s Hs), (truthy_nonempty g Hg).
    destruct (Py.str_in (Py.lower s) STATUSES) eqn:Ev; cbn [negb returned].
    - rewrite <- sort_tasks_perm, filter_filter_andb.
      rewrite (filter_ext_Forall _ _ (matches_both s g) tasks Hall);
        [reflexivity |].
      intros x Hx. unfold matches_both.
      now rewrite (lower_enum_status x Hx), has_tag_existsb.
    - rewrite filter_none; [reflexivity |].
      intros x Hx. unfold matches_both.
      rewrite List.Forall_forall in Hall.
      rewrite (lower_enum_status x (Hall x Hx)).
      destruct (String.eqb (Task.status x) (Py.lower s)) eqn:E;
        [| reflexivity].
      apply String.eqb_eq in E. specialize (Hall x Hx). rewrite E in Hall.
      apply str_in_In in Hall. congruence. }
  split; [exact Hperm |].
  intros x. rewrite (Permutation_in' (eq_refl x) Hperm).
  rewrite List.filter_In, matches_both_iff. reflexivity.
Qed.

Lemma status_and_tag_filters_conjoin_witness :
  Forall (fun x => In (Task.status x) STATUSES) [milk; report]
  /\ Permutation
       (returned (select_tasks (Some "Completed") None (Some "WORK")
                    "created_at" [milk; report]))
       [report].
Proof.
  assert (H : Forall (fun x => In (Task.status x) STATUSES) [milk; report]).
  { constructor; [| constructor; [| constructor]]; simpl; auto. }
  split; [exact H |].
  refine (proj1 (status_and_tag_filters_conjoin "Completed" "WORK"
                   "created_at" [milk; report] _ _ H)); discriminate.
Defined.

(** C8 fails as stated: with the status filter "completed" and the tag
    filter [""], the query returns [stale], a completed task that has no
    tag at all. *)
Lemma empty_tag_filter_keeps_untagged_task :
  select_tasks (Some "completed") None (Some "") "created_at" [milk; stale]
  = inr [stale]
  /\ Task.tags stale = []
  /\ matches_both "completed" "" stale = false.
Proof. vm_compute. repeat split; reflexivity. Qed.

(** An empty filter value is no filter. *)
Lemma empty_filter_is_no_filter (status priority tag : option string)
    (sort_by : string) (tasks : list task) :
  select_tasks (Some "") priority tag sort_by tasks
  = select_tasks None priority tag sort_by tasks
  /\ select_tasks status (Some "") tag sort_by tasks
     = select_tasks status None tag sort_by tasks
  /\ select_tasks status priority (Some "") sort_by tasks
     = select_tasks status priority None sort_by tasks.
Proof. repeat split; reflexivity. Qed.

(** *** What the store's own operations keep true of every task *)

Lemma load_tasks_stored (tasks_file : string) (w : world) :
  fst (load_tasks tasks_file w) = stored tasks_file w.
Proof.
  unfold load_tasks, stored, bind, read_file, ret, print. simpl.
  destruct (fs w !! tasks_file) as [[ts | txt] |]; reflexivity.
Qed.

Lemma spec_update_well_formed (e : env)
    (title description priority status due_date : option string)
    (tags : option (list string)) (t : task) :
  well_formed t ->
  well_formed
    (spec_update e title description priority status due_date tags t).
Proof.
  intros (Hs & Hp & Hc). unfold well_formed, spec_update.
  cbn [Task.status Task.priority Task.completed_at].
  split; [| split].
  - destruct status as [s |]; [| exact Hs].
    destruct (valid_in STATUSES s) eqn:E; [now apply str_in_In | exact Hs].
  - destruct priority as [p |]; [| exact Hp].
    destruct (valid_in PRIORITIES p) eqn:E; [now apply str_in_In | exact Hp].
  - destruct status as [s |]; [| exact Hc].
    destruct (valid_in STATUSES s); [| exact Hc].
    destruct (String.eqb (Py.lower s) "completed") eqn:Es.
    + destruct (String.eqb (Task.status t) "completed") eqn:Et;
        [| discriminate].
      intros _. apply Hc. now apply String.eqb_eq.
    + apply String.eqb_neq in Es. intros H. now destruct Es.
Qed.

Lemma pop_first_Forall (P : task -> Prop) (task_id : string)
    (tasks rest : list task) (removed : task) :
  pop_first task_id tasks = Some (removed, rest) ->
  Forall P tasks -> Forall P rest.
Proof.
  revert rest. induction tasks as [| x r IH]; simpl; [discriminate |].
  intros rest. destruct (String.eqb (Task.id x) task_id).
  - intros [= _ <-] H. now inversion H.
  - destruct (pop_first task_id r) as [[rm r'] |]; [| discriminate].
    intros [= <- <-] H. inversion H; subst. constructor; [assumption |].
    now apply IH.
Qed.

Lemma stored_after_save (tasks : list task) (tasks_file : string)
    (m : gmap string file) (o : list output) :
  stored tasks_file (mkWorld (<[tasks_file := Json tasks]> m) o) = tasks.
Proof. unfold stored. cbn [fs]. now rewrite lookup_insert_eq. Qed.

(** Every task that [add_task], [update_task] and [delete_task] leave in
    the tasks file is well formed when those it held before are. *)
Lemma operations_keep_well_formed (e : env) (task_id : string)
    (title description priority : string)
    (title' description' priority' status' due_date' : option string)
    (due_date : option string) (tags tags' : option (list string))
    (tasks_file : string) (w : world) :
  Forall well_formed (stored tasks_file w) ->
  Forall well_formed
    (stored tasks_file
       (snd (add_task e title description priority due_date tags tasks_file
               w)))
  /\ Forall well_formed
       (stored tasks_file
          (snd (update_task e task_id title' description' priority' status'
                  due_date' tags' tasks_file w)))
  /\ Forall well_formed
       (stored tasks_file (snd (delete_task task_id tasks_file w))).
Proof.
  intros H. split; [| split].
  - rewrite add_task_run. cbn [snd]. rewrite stored_after_save.
    rewrite load_tasks_stored. apply Forall_app. split; [exact H |].
    constructor; [| constructor]. unfold well_formed.
    cbn [Task.status Task.priority Task.completed_at].
    split; [simpl; auto | split; [| discriminate]].
    destruct (valid_in PRIORITIES priority) eqn:E;
      [now apply str_in_In | simpl; auto].
  - destruct (find_task task_id (stored tasks_file w)) as [t |] eqn:Ef.
    + assert (Hfs : fs w !! tasks_file = Some (Json (stored tasks_file w))).
      { unfold stored in *. destruct (fs w !! tasks_file) as [[ts | txt] |];
          [reflexivity | discriminate Ef | discriminate Ef]. }
      destruct (update_task_found e task_id title' description' priority'
                  status' due_date' tags' tasks_file w _ t Hfs Ef)
        as (l1 & l2 & Hl & _ & _ & Hst & _).
      unfold stored at 1. rewrite Hst, lookup_insert_eq.
      rewrite Hl in H. apply Forall_app in H as [H1 H2].
      apply Forall_app. split; [exact H1 |].
      inversion H2; subst. constructor; [| assumption].
      now apply spec_update_well_formed.
    + unfold update_task, bind.
      pose proof (load_tasks_fs tasks_file w) as Hfs.
      pose proof (load_tasks_stored tasks_file w) as Hld.
      destruct (load_tasks tasks_file w) as [ts w']. cbn [fst snd] in *.
      subst ts. rewrite (update_first_absent _ _ _ _ Ef). cbn.
      unfold stored in *. cbn [fs]. now rewrite Hfs.
  - unfold delete_task, bind.
    pose proof (load_tasks_fs tasks_file w) as Hfs.
    pose proof (load_tasks_stored tasks_file w) as Hld.
    destruct (load_tasks tasks_file w) as [ts w']. cbn [fst snd] in *.
    subst ts.
    destruct (pop_first task_id (stored tasks_file w)) as [[rm rest] |] eqn:Ep.
    + unfold ret, print. rewrite save_tasks_run. cbn [fst snd fs out].
      rewrite stored_after_save. eapply pop_first_Forall; eassumption.
    + cbn. unfold stored in *. cbn [fs]. now rewrite Hfs.
Qed.

(** ** Further properties of the store *)

(** X1: when the tasks file is missing, or holds ASCII text that
    [json.load] rejects as malformed JSON, [add_task] still succeeds and
    leaves a file with the new task alone; the rejected text is lost, after
    the line that reports the file as corrupted.  A file whose bytes do not
    decode is another matter: [load_tasks] does not catch that error. *)
Theorem add_task_replaces_unreadable_file (e : env)
    (title description priority : string) (due_date : option string)
    (tags : option (list string)) (tasks_file : string) (w : world) :
  fs w !! tasks_file = None
  \/ (exists text,
        fs w !! tasks_file = Some (Unparsable text)
        /\ ascii_text text = true) ->
  let r := add_task e title description priority due_date tags tasks_file w in
  exists t,
    fs (snd r) !! tasks_file = Some (Json [t])
    /\ Task.id t = fst r
    /\ Task.title t = title
    /\ (fs w !! tasks_file = None ->
        out (snd r)
        = out w
          ++ (if valid_in PRIORITIES priority then []
              else [Line ("Invalid priority: " +:+ priority
                          +:+ ". Using 'medium' instead.")])
          ++ [Line ("Task added with ID: " +:+ fst r)])
    /\ (forall text,
          fs w !! tasks_file = Some (Unparsable text) ->
          exists rest,
            out (snd r)
            = out w
              ++ Line ("Error: " +:+ tasks_file
                       +:+ " is corrupted. Creating a new tasks file.")
              :: rest).
Proof.
  intros H r. subst r. rewrite add_task_run, load_tasks_run.
  cbn [fst snd fs out]. eexists. rewrite lookup_insert_eq.
  assert (El : stored tasks_file w = []).
  { unfold stored. destruct H as [-> | (text & -> & _)]; reflexivity. }
  rewrite El. cbn [app].
  split; [reflexivity |]. split; [reflexivity |]. split; [reflexivity |].
  split.
  - intros Hn. unfold corruption_report. rewrite Hn. now rewrite app_nil_r.
  - intros text Ht. unfold corruption_report. rewrite Ht.
    rewrite <- app_assoc. cbn [app]. eexists. reflexivity.
Qed.

Lemma add_task_replaces_unreadable_file_witness :
  (fs (mkWorld {[ "tasks.json" := Unparsable "{oops" ]} []) !! "tasks.json"
   = None
   \/ exists text,
        fs (mkWorld {[ "tasks.json" := Unparsable "{oops" ]} [])
          !! "tasks.json" = Some (Unparsable text)
        /\ ascii_text text = true)
  /\ exists t,
       fs (snd (add_task sample_env "Buy milk" "" "high" None None
                  "tasks.json"
                  (mkWorld {[ "tasks.json" := Unparsable "{oops" ]} [])))
         !! "tasks.json" = Some (Json [t])
       /\ Task.title t = "Buy milk".
Proof.
  assert (H : fs (mkWorld {[ "tasks.json" := Unparsable "{oops" ]} [])
                !! "tasks.json" = None
              \/ exists text,
                   fs (mkWorld {[ "tasks.json" := Unparsable "{oops" ]} [])
                     !! "tasks.json" = Some (Unparsable text)
                   /\ ascii_text text = true).
  { right. exists "{oops". split; vm_compute; reflexivity. }
  split; [exact H |].
  destruct (add_task_replaces_unreadable_file sample_env "Buy milk" "" "high"
              None None "tasks.json" _ H) as (t & Hfs & _ & Ht & _).
  exists t. split; [exact Hfs | exact Ht].
Defined.

Lemma pop_first_found (task_id : string) (l1 l2 : list task) (t : task) :
  find_task task_id l1 = None -> Task.id t = task_id ->
  pop_first task_id (l1 ++ t :: l2) = Some (t, l1 ++ l2).
Proof.
  intros Hn Hid. induction l1 as [| x r IH]; simpl in *.
  - subst. now rewrite String.eqb_refl.
  - destruct (String.eqb (Task.id x) task_id); [discriminate |].
    now rewrite (IH Hn).
Qed.

Lemma find_task_app_None (task_id : string) (l1 l2 : list task) :
  find_task task_id l1 = None ->
  find_task task_id (l1 ++ l2) = find_task task_id l2.
Proof.
  intros Hn. induction l1 as [| x r IH]; simpl in *; [reflexivity |].
  destruct (String.eqb (Task.id x) task_id); [discriminate | auto].
Qed.

Lemma delete_task_found (task_id tasks_file : string)
    (w : world) (tasks : list task) (t : task) :
  fs w !! tasks_file = Some (Json tasks) ->
  find_task task_id tasks = Some t ->
  let r := delete_task task_id tasks_file w in
  exists l1 l2,
    tasks = l1 ++ t :: l2
    /\ find_task task_id l1 = None
    /\ fst r = true
    /\ fs (snd r) = <[tasks_file := Json (l1 ++ l2)]> (fs w)
    /\ out (snd r)
       = out w ++ [Line ("Task " +:+ task_id +:+ " (" +:+ Task.title t
                         +:+ ") deleted successfully")]
    /\ find_task task_id (l1 ++ l2) = find_task task_id l2
    /\ length (l1 ++ l2) + 1 = length tasks.
Proof.
  intros Hfs Hfind r.
  destruct (find_task_split _ _ _ Hfind) as (l1 & l2 & -> & Hn & Hid).
  exists l1, l2. subst r. unfold delete_task, bind.
  rewrite (load_tasks_json _ _ _ Hfs), (pop_first_found _ _ _ _ Hn Hid).
  unfold ret, print. rewrite save_tasks_run. cbn [fst snd fs out].
  split; [reflexivity |]. split; [exact Hn |].
  split; [reflexivity |]. split; [reflexivity |]. split; [reflexivity |].
  split; [now apply find_task_app_None |].
  rewrite !length_app. cbn [length]. lia.
Qed.


(** X2: when a task of the collection has the id, [delete_task] returns
    true and persists the collection without the first such task: the
    tasks before and after it keep their order, the line printed names the
    removed task's title, and a later task with the same id stays. *)
Theorem delete_task_removes_first_match (task_id tasks_file : string)
    (w : world) (tasks : list task) (t : task) :
  fs w !! tasks_file = Some (Json tasks) ->
  find_task task_id tasks = Some t ->
  let r := delete_task task_id tasks_file w in
  exists l1 l2,
    tasks = l1 ++ t :: l2
    /\ find_task task_id l1 = None
    /\ fst r = true
    /\ fs (snd r) = <[tasks_file := Json (l1 ++ l2)]> (fs w)
    /\ out (snd r)
       = out w ++ [Line ("Task " +:+ task_id +:+ " (" +:+ Task.title t
                         +:+ ") deleted successfully")]
    /\ find_task task_id (l1 ++ l2) = find_task task_id l2
    /\ length (l1 ++ l2) + 1 = length tasks.
Proof.
  intros Hfs Hfind r.
  destruct (find_task_split _ _ _ Hfind) as (l1 & l2 & Hl & Hn & Hid).
  exists l1, l2. subst tasks r. unfold delete_task, bind.
  rewrite (load_tasks_json _ _ _ Hfs), (pop_first_found _ _ _ _ Hn Hid).
  unfold ret, print. rewrite save_tasks_run. cbn [fst snd fs out].
  repeat match goal with |- _ /\ _ => split end;
    try reflexivity; try assumption.
  - now apply find_task_app_None.
  - rewrite !length_app. cbn [length]. lia.
Qed.

Lemma delete_task_removes_first_match_witness :
  fs sample_world !! "tasks.json" = Some (Json [milk; report])
  /\ find_task "0f1e2d3c" [milk; report] = Some report
  /\ fst (delete_task "0f1e2d3c" "tasks.json" sample_world) = true.
Proof.
  assert (Hfs : fs sample_world !! "tasks.json" = Some (Json [milk; report]))
    by (vm_compute; reflexivity).
  assert (Hfind : find_task "0f1e2d3c" [milk; report] = Some report)
    by reflexivity.
  split; [exact Hfs | split; [exact Hfind |]].
  destruct (delete_task_removes_first_match "0f1e2d3c" "tasks.json"
              sample_world [milk; report] report Hfs Hfind)
    as (l1 & l2 & _ & _ & Hret & _).
  exact Hret.
Defined.

Lemma stored_json (tasks_file : string) (w : world) (tasks : list task) :
  fs w !! tasks_file = Some (Json tasks) -> stored tasks_file w = tasks.
Proof. intros H. unfold stored. now rewrite H. Qed.

Lemma first_match_unique (i : string) (a1 a2 b1 b2 : list task)
    (x y : task) :
  a1 ++ x :: a2 = b1 ++ y :: b2 ->
  find_task i a1 = None -> Task.id x = i ->
  find_task i b1 = None -> Task.id y = i ->
  a1 = b1 /\ a2 = b2.
Proof.
  revert a2 b1 b2 x y.
  induction a1 as [| a r IH]; intros a2 b1 b2 x y E Ha Hx Hb Hy.
  - destruct b1 as [| b r']; cbn [app] in E.
    + now injection E as _ ->.
    + injection E as -> _. cbn [find_task] in Hb.
      rewrite Hx, String.eqb_refl in Hb. discriminate.
  - destruct b1 as [| b r']; cbn [app] in E.
    + injection E as -> _. cbn [find_task] in Ha.
      rewrite Hy, String.eqb_refl in Ha. discriminate.
    + injection E as -> E. cbn [find_task] in Ha, Hb.
      destruct (String.eqb (Task.id b) i); [discriminate |].
      destruct (IH _ _ _ _ _ E Ha Hx Hb Hy) as [-> ->]. now split.
Qed.

(** X3: adding a task and then deleting the id that [add_task] returned.
    When no task of the collection had that id, the collection is back to
    what it was.  When an older task had it, that older task is the one
    deleted and the new task stays. *)
Theorem add_then_delete_returned_id (e : env)
    (title description priority : string) (due_date : option string)
    (tags : option (list string)) (tasks_file : string) (w : world)
    (tasks : list task) :
  fs w !! tasks_file = Some (Json tasks) ->
  let a := add_task e title description priority due_date tags tasks_file w in
  let d := delete_task (fst a) tasks_file (snd a) in
  fst d = true
  /\ (find_task (fst a) tasks = None -> stored tasks_file (snd d) = tasks)
  /\ (forall l1 old l2,
        tasks = l1 ++ old :: l2 -> find_task (fst a) l1 = None ->
        Task.id old = fst a ->
        exists new,
          stored tasks_file (snd d) = l1 ++ l2 ++ [new]
          /\ Task.title new = title /\ Task.id new = fst a).
Proof.
  intros Hfs. cbv zeta. rewrite add_task_run.
  rewrite (load_tasks_json _ _ _ Hfs). cbn [fst snd Task.id].
  set (i := Py.take_str 8 (uuid4 e)).
  match goal with
  | |- context [Json (tasks ++ [?x])] => set (new := x)
  end.
  match goal with
  | |- context [delete_task _ _ ?x] => set (w1 := x)
  end.
  set (d := delete_task i tasks_file w1).
  assert (Hfs1 : fs w1 !! tasks_file = Some (Json (tasks ++ [new])))
    by (subst w1; cbn [fs]; apply lookup_insert_eq).
  assert (Hnew : Task.id new = i) by reflexivity.
  destruct (find_task i tasks) as [old |] eqn:Ef.
  - destruct (find_task_split _ _ _ Ef) as (l1 & l2 & Hl & Hn & Hid).
    assert (Ef1 : find_task i (tasks ++ [new]) = Some old).
    { rewrite Hl, <- app_assoc. cbn [app]. now apply find_task_app. }
    destruct (delete_task_found i tasks_file w1 _ old Hfs1 Ef1)
      as (k1 & k2 & Hk & Hkn & Hret & Hst & _).
    fold d in Hret, Hst. split; [exact Hret |]. split; [discriminate |].
    intros m1 old' m2 Hm Hmn Hmid. exists new.
    split; [| split; reflexivity].
    unfold stored. rewrite Hst, lookup_insert_eq.
    assert (Hk' : m1 ++ old' :: (m2 ++ [new]) = k1 ++ old :: k2).
    { rewrite <- Hk, Hm, <- app_assoc. reflexivity. }
    destruct (first_match_unique i _ _ _ _ _ _ Hk' Hmn Hmid Hkn
                ltac:(destruct (find_task_split _ _ _ Ef1)
                        as (? & ? & ? & ? & ?); assumption)) as [-> <-].
    reflexivity.
  - assert (Ef1 : find_task i (tasks ++ [new]) = Some new)
      by now apply find_task_app.
    destruct (delete_task_found i tasks_file w1 _ new Hfs1 Ef1)
      as (k1 & k2 & Hk & Hkn & Hret & Hst & _).
    fold d in Hret, Hst. split; [exact Hret |]. split.
    + intros _. unfold stored. rewrite Hst, lookup_insert_eq.
      destruct k2 as [| y k2].
      * apply app_inj_tail in Hk as [-> _]. apply app_nil_r.
      * exfalso. assert (Hin : In new tasks).
        { assert (E : tasks ++ [new] = (k1 ++ [new] ++ removelast (y :: k2))
                                       ++ [List.last (y :: k2) new]).
          { rewrite Hk, <- !app_assoc. cbn [app]. do 2 f_equal.
            apply app_removelast_last. discriminate. }
          apply app_inj_tail in E as [-> _]. apply in_or_app. right.
          now left. }
        apply find_task_None with (t := new) in Ef; [| exact Hin].
        now apply Ef.
    + intros l1 old l2 -> Hn Hid.
      rewrite (find_task_app _ _ _ _ Hn Hid) in Ef. discriminate.
Qed.

Lemma add_then_delete_returned_id_witness :
  fs sample_world !! "tasks.json" = Some (Json [milk; report])
  /\ fst (delete_task
            (fst (add_task sample_env "Pay rent" "" "low" None None
                    "tasks.json" sample_world))
            "tasks.json"
            (snd (add_task sample_env "Pay rent" "" "low" None None
                    "tasks.json" sample_world))) = true.
Proof.
  assert (Hfs : fs sample_world !! "tasks.json" = Some (Json [milk; report]))
    by (vm_compute; reflexivity).
  split; [exact Hfs |].
  exact (proj1 (add_then_delete_returned_id sample_env "Pay rent" "" "low"
                  None None "tasks.json" sample_world [milk; report] Hfs)).
Defined.

Lemma update_task_absent (e : env) (task_id : string)
    (title description priority status due_date : option string)
    (tags : option (list string)) (tasks_file : string) (w : world) :
  find_task task_id (stored tasks_file w) = None ->
  fs (snd (update_task e task_id title description priority status due_date
             tags tasks_file w)) = fs w.
Proof.
  intros Hn. unfold update_task, bind.
  pose proof (load_tasks_fs tasks_file w) as Hfs.
  pose proof (load_tasks_stored tasks_file w) as Hld.
  destruct (load_tasks tasks_file w) as [ts w']. cbn [fst snd] in *.
  subst ts. rewrite (update_first_absent _ _ _ _ Hn). exact Hfs.
Qed.

Lemma find_task_stored_json (task_id tasks_file : string) (w : world)
    (t : task) :
  find_task task_id (stored tasks_file w) = Some t ->
  fs w !! tasks_file = Some (Json (stored tasks_file w)).
Proof.
  unfold stored. destruct (fs w !! tasks_file) as [[ts | txt] |];
    [reflexivity | discriminate | discriminate].
Qed.

(** X4: [update_task] never adds, removes or reorders tasks and never
    changes an id or a creation time: the ids and [created_at] values of
    the stored collection, in order, are the same after any call. *)
Theorem update_task_keeps_identity (e : env) (task_id : string)
    (title description priority status due_date : option string)
    (tags : option (list string)) (tasks_file : string) (w : world) :
  let r := update_task e task_id title description priority status due_date
             tags tasks_file w in
  map (fun t => (Task.id t, Task.created_at t)) (stored tasks_file (snd r))
  = map (fun t => (Task.id t, Task.created_at t)) (stored tasks_file w).
Proof.
  intros r. destruct (find_task task_id (stored tasks_file w)) as [t |] eqn:Ef.
  - pose proof (find_task_stored_json _ _ _ _ Ef) as Hfs.
    destruct (update_task_found e task_id title description priority status
                due_date tags tasks_file w _ t Hfs Ef)
      as (l1 & l2 & Hl & _ & _ & Hst & _).
    fold r in Hst. unfold stored at 1. rewrite Hst, lookup_insert_eq, Hl.
    rewrite !map_app. reflexivity.
  - subst r. unfold stored at 1.
    now rewrite (update_task_absent _ _ _ _ _ _ _ _ _ _ Ef).
Qed.

Lemma delete_task_absent (task_id tasks_file : string) (w : world) :
  find_task task_id (stored tasks_file w) = None ->
  fs (snd (delete_task task_id tasks_file w)) = fs w.
Proof.
  intros Hn. unfold delete_task, bind.
  pose proof (load_tasks_fs tasks_file w) as Hfs.
  pose proof (load_tasks_stored tasks_file w) as Hld.
  destruct (load_tasks tasks_file w) as [ts w']. cbn [fst snd] in *.
  subst ts. rewrite (pop_first_absent _ _ Hn). exact Hfs.
Qed.

Lemma view_lines_fs (x : task) (w : world) : fs (snd (view_lines x w)) = fs w.
Proof.
  unfold view_lines, bind, print, ret. cbn [fst snd fs].
  destruct (Task.due_date x) as [d |]; [destruct (Py.truthy d) |];
    (destruct (Task.completed_at x) as [c |]; [destruct (Py.truthy c) |]);
    destruct (Task.tags x); reflexivity.
Qed.

Lemma view_task_fs (task_id tasks_file : string) (w : world) :
  fs (snd (view_task task_id tasks_file w)) = fs w.
Proof.
  unfold view_task, bind.
  pose proof (load_tasks_fs tasks_file w) as Hfs.
  destruct (load_tasks tasks_file w) as [ts w']. cbn [fst snd] in *.
  destruct (find_task task_id ts) as [x |].
  - pose proof (view_lines_fs x w') as Hv.
    destruct (view_lines x w') as [u w'']. cbn [fst snd ret] in *.
    now rewrite Hv.
  - exact Hfs.
Qed.

Lemma list_tasks_fs (status priority tag : option string)
    (sort_by tasks_file : string) (w : world) :
  fs (snd (list_tasks status priority tag sort_by tasks_file w)) = fs w.
Proof.
  unfold list_tasks, bind.
  pose proof (load_tasks_fs tasks_file w) as Hfs.
  destruct (load_tasks tasks_file w) as [ts w']. cbn [fst snd] in *.
  destruct (select_tasks status priority tag sort_by ts) as [msg | [| x r]];
    exact Hfs.
Qed.

(** X5: a command reads and writes its own tasks file only.  [list_tasks]
    and [view_task] leave the whole file system as it was, and what
    [add_task], [update_task] and [delete_task] do to it is confined to the
    path they are given. *)
Theorem operations_touch_only_their_file (e : env) (task_id : string)
    (title description priority sort_by : string)
    (otitle odescription opriority ostatus odue otag : option string)
    (tags otags : option (list string)) (tasks_file p : string) (w : world) :
  p <> tasks_file ->
  fs (snd (list_tasks ostatus opriority otag sort_by tasks_file w)) = fs w
  /\ fs (snd (view_task task_id tasks_file w)) = fs w
  /\ fs (snd (add_task e title description priority odue tags tasks_file w))
       !! p = fs w !! p
  /\ fs (snd (update_task e task_id otitle odescription opriority ostatus
                odue otags tasks_file w)) !! p = fs w !! p
  /\ fs (snd (delete_task task_id tasks_file w)) !! p = fs w !! p.
Proof.
  intros Hp. split; [apply list_tasks_fs |]. split; [apply view_task_fs |].
  split; [| split].
  - rewrite add_task_run. cbn [snd fs]. apply lookup_insert_ne. now apply not_eq_sym.
  - destruct (find_task task_id (stored tasks_file w)) as [t |] eqn:Ef.
    + pose proof (find_task_stored_json _ _ _ _ Ef) as Hfs.
      destruct (update_task_found e task_id otitle odescription opriority
                  ostatus odue otags tasks_file w _ t Hfs Ef)
        as (l1 & l2 & _ & _ & _ & Hst & _).
      rewrite Hst. apply lookup_insert_ne. now apply not_eq_sym.
    + now rewrite (update_task_absent _ _ _ _ _ _ _ _ _ _ Ef).
  - destruct (find_task task_id (stored tasks_file w)) as [t |] eqn:Ef.
    + pose proof (find_task_stored_json _ _ _ _ Ef) as Hfs.
      destruct (delete_task_found task_id tasks_file w _ t
                  Hfs Ef) as (l1 & l2 & _ & _ & _ & Hst & _).
      rewrite Hst. apply lookup_insert_ne. now apply not_eq_sym.
    + now rewrite (delete_task_absent _ _ _ Ef).
Qed.

Lemma operations_touch_only_their_file_witness :
  "notes.json" <> "tasks.json"
  /\ fs (snd (delete_task "abc123de" "tasks.json" sample_world))
       !! "notes.json" = fs sample_world !! "notes.json".
Proof.
  assert (H : "notes.json" <> "tasks.json") by discriminate.
  split; [exact H |].
  exact (proj2 (proj2 (proj2 (proj2
           (operations_touch_only_their_file sample_env "abc123de" "" "" ""
              "" None None None None None None None None "tasks.json"
              "notes.json" sample_world H))))).
Defined.

Lemma find_task_Some_In (task_id : string) (tasks : list task) (t : task) :
  find_task task_id tasks = Some t -> In t tasks /\ Task.id t = task_id.
Proof.
  intros H. destruct (find_task_split _ _ _ H) as (l1 & l2 & -> & _ & Hid).
  split; [| exact Hid]. apply in_or_app. right. now left.
Qed.

Lemma view_task_found (task_id tasks_file : string) (w : world) (t : task) :
  find_task task_id (stored tasks_file w) = Some t ->
  fst (view_task task_id tasks_file w) = true.
Proof.
  intros H. unfold view_task, bind.
  pose proof (load_tasks_stored tasks_file w) as Hld.
  destruct (load_tasks tasks_file w) as [ts w']. cbn [fst snd] in *.
  subst ts. rewrite H. now destruct (view_lines t w').
Qed.

Lemma view_task_absent (task_id tasks_file : string) (w : world) :
  find_task task_id (stored tasks_file w) = None ->
  view_task task_id tasks_file w
  = (false,
     mkWorld (fs w)
       (out (snd (load_tasks tasks_file w))
        ++ [Line ("Task with ID " +:+ task_id +:+ " not found")])).
Proof.
  intros H. unfold view_task, bind.
  pose proof (load_tasks_stored tasks_file w) as Hld.
  pose proof (load_tasks_fs tasks_file w) as Hfs.
  destruct (load_tasks tasks_file w) as [ts w']. cbn [fst snd] in *.
  subst ts. rewrite H. unfold print, ret. cbn [fst snd]. now rewrite Hfs.
Qed.

(** X6: [view_task] returns true exactly when a task of the stored
    collection has the id; it never writes to the file system, and when it
    returns false the last thing it printed is the not-found line. *)
Theorem view_task_reports_presence (task_id tasks_file : string) (w : world) :
  let r := view_task task_id tasks_file w in
  (fst r = true <->
   exists t, In t (stored tasks_file w) /\ Task.id t = task_id)
  /\ fs (snd r) = fs w
  /\ (fst r = false ->
      out (snd r)
      = out (snd (load_tasks tasks_file w))
        ++ [Line ("Task with ID " +:+ task_id +:+ " not found")]).
Proof.
  intros r. split; [| split; [apply view_task_fs |]].
  - destruct (find_task task_id (stored tasks_file w)) as [t |] eqn:Ef.
    + split; [| intros _; exact (view_task_found _ _ _ _ Ef)].
      intros _. exists t. now apply find_task_Some_In.
    + subst r. rewrite (view_task_absent _ _ _ Ef). cbn [fst]. split;
        [discriminate |].
      intros (t & Hin & Hid). rewrite find_task_None in Ef.
      now destruct (Ef t Hin).
  - destruct (find_task task_id (stored tasks_file w)) as [t |] eqn:Ef.
    + subst r. rewrite (view_task_found _ _ _ _ Ef). discriminate.
    + subst r. now rewrite (view_task_absent _ _ _ Ef).
Qed.

(** X7: the id that [add_task] returns names a task of the collection it
    left: [view_task], [update_task] and [delete_task] called next with
    that id all find a task and return true. *)
Theorem added_id_is_found (e e' : env) (title description priority : string)
    (due_date : option string) (tags : option (list string))
    (title' description' priority' status' due_date' : option string)
    (tags' : option (list string)) (tasks_file : string) (w : world) :
  let a := add_task e title description priority due_date tags tasks_file w in
  fst (view_task (fst a) tasks_file (snd a)) = true
  /\ fst (update_task e' (fst a) title' description' priority' status'
            due_date' tags' tasks_file (snd a)) = true
  /\ fst (delete_task (fst a) tasks_file (snd a)) = true.
Proof.
  cbv zeta. rewrite add_task_run. cbn [fst snd Task.id].
  set (i := Py.take_str 8 (uuid4 e)).
  match goal with
  | |- context [Json (?old ++ [?x])] => set (tasks := old); set (new := x)
  end.
  match goal with
  | |- context [delete_task _ _ ?x] => set (w1 := x)
  end.
  assert (Hfs1 : fs w1 !! tasks_file = Some (Json (tasks ++ [new])))
    by (subst w1; cbn [fs]; apply lookup_insert_eq).
  assert (Hf : exists t, find_task i (tasks ++ [new]) = Some t).
  { apply find_task_present. exists new. split; [| reflexivity].
    apply in_or_app. right. now left. }
  destruct Hf as [t Hf]. split; [| split].
  - apply (view_task_found _ _ _ t). now rewrite (stored_json _ _ _ Hfs1).
  - now destruct (update_task_found e' i title' description' priority'
                    status' due_date' tags' tasks_file w1 _ t Hfs1 Hf)
      as (l1 & l2 & _ & _ & Hret & _).
  - now destruct (delete_task_found i tasks_file w1 _ t Hfs1 Hf)
      as (l1 & l2 & _ & _ & Hret & _).
Qed.

(** ** Invariants over runs of the script *)

Lemma stored_same_file (f : string) (w w' : world) :
  fs w' !! f = fs w !! f -> stored f w' = stored f w.
Proof. intros H. unfold stored. now rewrite H. Qed.

Lemma consistent_new_task (e : env) (title description priority : string)
    (due_date : option string) (tags : list string) :
  consistent {|
    Task.id := Py.take_str 8 (uuid4 e);
    Task.title := title;
    Task.description := description;
    Task.priority :=
      if valid_in PRIORITIES priority then Py.lower priority else "medium";
    Task.status := "pending";
    Task.created_at := now e;
    Task.due_date := due_date;
    Task.completed_at := None;
    Task.tags := tags
  |}.
Proof.
  unfold consistent. cbn [Task.status Task.priority Task.completed_at].
  split; [simpl; auto |]. split.
  - destruct (valid_in PRIORITIES priority) eqn:E;
      [now apply str_in_In | simpl; auto].
  - split; [discriminate | intros H; now destruct H].
Qed.

Lemma consistent_spec_update (e : env)
    (title description priority status due_date : option string)
    (tags : option (list string)) (t : task) :
  consistent t ->
  consistent (spec_update e title description priority status due_date tags t).
Proof.
  intros (Hs & Hp & Hc). unfold consistent, spec_update.
  cbn [Task.status Task.priority Task.completed_at].
  split; [| split].
  - destruct status as [s |]; [| exact Hs].
    destruct (valid_in STATUSES s) eqn:E; [now apply str_in_In | exact Hs].
  - destruct priority as [p |]; [| exact Hp].
    destruct (valid_in PRIORITIES p) eqn:E; [now apply str_in_In | exact Hp].
  - destruct status as [s |]; [| exact Hc].
    destruct (valid_in STATUSES s); [| exact Hc].
    destruct (String.eqb (Py.lower s) "completed") eqn:Es.
    + apply String.eqb_eq in Es.
      destruct (String.eqb (Task.status t) "completed") eqn:Et.
      * apply String.eqb_eq in Et. split; [intros _; now apply Hc | auto].
      * split; [discriminate | auto].
    + apply String.eqb_neq in Es. split; [intros H; now destruct Es |].
      intros H. now destruct H.
Qed.

Lemma dispatch_keeps_consistent (e : env) (a : args) (f : string)
    (w : world) :
  Forall consistent (stored f w) ->
  Forall consistent (stored f (snd (dispatch e a w))).
Proof.
  intros H.
  assert (Hsnd : forall (A : Type) (m : M A) (x : world),
             snd (bind m (fun _ => ret tt) x) = snd (m x)).
  { intros A m x. unfold bind, ret. now destruct (m x). }
  destruct a as [title description priority due tags g
                | status priority tag sort g
                | i g
                | i title description priority status due tags g
                | i g]; cbn [dispatch]; rewrite ?Hsnd.
  - destruct (String.eqb_spec g f) as [-> | Hne].
    + rewrite add_task_run. cbn [snd]. rewrite stored_after_save.
      rewrite load_tasks_stored. apply Forall_app. split; [exact H |].
      constructor; [apply consistent_new_task | constructor].
    + rewrite (stored_same_file f w); [exact H |].
      rewrite add_task_run. cbn [snd fs]. now apply lookup_insert_ne.
  - rewrite (stored_same_file f w); [exact H |]. now rewrite list_tasks_fs.
  - rewrite (stored_same_file f w); [exact H |]. now rewrite view_task_fs.
  - set (tags' := match tags with
                  | Some s => Some (parse_tags s)
                  | None => None
                  end).
    destruct (find_task i (stored g w)) as [t |] eqn:Ef.
    + pose proof (find_task_stored_json _ _ _ _ Ef) as Hfs.
      destruct (update_task_found e i title description priority status due
                  tags' g w _ t Hfs Ef) as (l1 & l2 & Hl & _ & _ & Hst & _).
      destruct (String.eqb_spec g f) as [-> | Hne].
      * unfold stored at 1. rewrite Hst, lookup_insert_eq.
        rewrite Hl in H. apply Forall_app in H as [H1 H2].
        apply Forall_app. split; [exact H1 |].
        inversion H2; subst. constructor; [| assumption].
        now apply consistent_spec_update.
      * rewrite (stored_same_file f w); [exact H |].
        rewrite Hst. now apply lookup_insert_ne.
    + rewrite (stored_same_file f w); [exact H |].
      now rewrite (update_task_absent _ _ _ _ _ _ _ _ _ _ Ef).
  - destruct (find_task i (stored g w)) as [t |] eqn:Ef.
    + pose proof (find_task_stored_json _ _ _ _ Ef) as Hfs.
      destruct (delete_task_found i g w _ t Hfs Ef)
        as (l1 & l2 & Hl & _ & _ & Hst & _).
      destruct (String.eqb_spec g f) as [-> | Hne].
      * unfold stored at 1. rewrite Hst, lookup_insert_eq.
        rewrite Hl in H. apply Forall_app in H as [H1 H2].
        apply Forall_app. split; [exact H1 |]. now inversion H2.
      * rewrite (stored_same_file f w); [exact H |].
        rewrite Hst. now apply lookup_insert_ne.
    + rewrite (stored_same_file f w); [exact H |].
      now rewrite (delete_task_absent _ _ _ Ef).
Qed.

(** X8: the invariants of the data model hold along every sequence of
    runs of the script.  When every task of a tasks file has its status and
    priority in the enums and a [completed_at] exactly when it is
    completed, the same is true of that file after any number of add, list,
    view, update and delete commands, on that file or on others. *)
Theorem runs_keep_tasks_consistent (runs : list (env * args)) (f : string)
    (w : world) :
  Forall consistent (stored f w) ->
  Forall consistent (stored f (snd (run_all runs w))).
Proof.
  revert w. induction runs as [| [e a] r IH]; intros w H; [exact H |].
  cbn [run_all]. unfold bind.
  pose proof (dispatch_keeps_consistent e a f w H) as Hd.
  destruct (dispatch e a w) as [u w']. cbn [snd] in Hd. now apply IH.
Qed.

Lemma runs_keep_tasks_consistent_witness :
  Forall consistent (stored "tasks.json" (mkWorld ∅ []))
  /\ Forall consistent
       (stored "tasks.json"
          (snd (run_all
                  [(sample_env,
                    ArgsAdd "Buy milk" "" "urgent" None "home, shop"
                      "tasks.json");
                   (later_env,
                    ArgsUpdate "9b2d4f6a" None None None (Some "Completed")
                      None None "tasks.json")]
                  (mkWorld ∅ [])))).
Proof.
  assert (H : Forall consistent (stored "tasks.json" (mkWorld ∅ [])))
    by constructor.
  split; [exact H |]. now apply runs_keep_tasks_consistent.
Defined.

(** ** Further properties of the query engine *)

Lemma string_leb_trans (s1 s2 s3 : string) :
  String.leb s1 s2 = true -> String.leb s2 s3 = true ->
  String.leb s1 s3 = true.
Proof.
  unfold String.leb. revert s2 s3.
  induction s1 as [| a s1 IH]; intros [| b s2] [| c s3];
    cbn [String.compare]; try easy.
  unfold Ascii.compare.
  destruct (N.compare_spec (N_of_ascii a) (N_of_ascii b)) as [E1 | L1 | G1],
           (N.compare_spec (N_of_ascii b) (N_of_ascii c)) as [E2 | L2 | G2],
           (N.compare_spec (N_of_ascii a) (N_of_ascii c)) as [E3 | L3 | G3];
    try easy; try lia; apply IH.
Qed.

Lemma string_leb_refl (s : string) : String.leb s s = true.
Proof. destruct (String.leb_total s s); assumption. Qed.

Lemma string_leb_empty (s : string) : String.leb s "" = true -> s = "".
Proof. now destruct s. Qed.

Section StableSortByStringKey.
Context {A : Type} (key : A -> string).

Let before (x y : A) : bool := String.leb (key x) (key y).
Let asc (x y : A) : Prop := String.leb (key x) (key y) = true.

Lemma insert_sorted_asc (x : A) (l : list A) :
  StronglySorted asc l -> StronglySorted asc (Py.insert_sorted before x l).
Proof.
  induction 1 as [| y r Hr IH Hy]; cbn [Py.insert_sorted].
  - repeat constructor.
  - unfold before at 1. destruct (String.leb (key x) (key y)) eqn:E.
    + constructor; [now constructor |]. constructor; [exact E |].
      eapply List.Forall_impl; [| exact Hy]. unfold asc. intros z Hz.
      now apply (string_leb_trans _ (key y)).
    + assert (E' : asc y x).
      { unfold asc. destruct (String.leb_total (key x) (key y)); congruence. }
      constructor; [exact IH |].
      apply (Permutation_Forall (insert_sorted_perm before x r)).
      constructor; [exact E' | exact Hy].
Qed.

Lemma sorted_asc (l : list A) : StronglySorted asc (Py.sorted before l).
Proof.
  induction l as [| x r IH]; cbn [Py.sorted]; [constructor |].
  now apply insert_sorted_asc.
Qed.

Lemma insert_sorted_stable_key (k : string) (x : A) (l : list A) :
  List.filter (fun z => String.eqb (key z) k) (Py.insert_sorted before x l)
  = List.filter (fun z => String.eqb (key z) k) (x :: l).
Proof.
  induction l as [| y r IH]; [reflexivity |].
  cbn [Py.insert_sorted]. unfold before at 1.
  destruct (String.leb (key x) (key y)) eqn:E; [reflexivity |].
  cbn [List.filter] in *. rewrite IH.
  destruct (String.eqb (key y) k) eqn:Ey, (String.eqb (key x) k) eqn:Ex;
    try reflexivity.
  apply String.eqb_eq in Ey, Ex. rewrite Ey, Ex, string_leb_refl in E.
  discriminate.
Qed.

Lemma sorted_stable_key (k : string) (l : list A) :
  List.filter (fun z => String.eqb (key z) k) (Py.sorted before l)
  = List.filter (fun z => String.eqb (key z) k) l.
Proof.
  induction l as [| x r IH]; [reflexivity |].
  cbn [Py.sorted]. rewrite insert_sorted_stable_key. cbn [List.filter].
  now rewrite IH.
Qed.

Lemma asc_empty_keys_first (l : list A) :
  StronglySorted asc l ->
  l = List.filter (fun z => String.eqb (key z) "") l
      ++ List.filter (fun z => negb (String.eqb (key z) "")) l.
Proof.
  induction 1 as [| y r Hr IH Hy]; [reflexivity |]. cbn [List.filter].
  destruct (String.eqb (key y) "") eqn:E; cbn [negb app].
  - now rewrite <- IH.
  - assert (Hnone : List.filter (fun z => String.eqb (key z) "") r = []).
    { apply filter_none. intros z Hz. rewrite List.Forall_forall in Hy.
      specialize (Hy z Hz). unfold asc in Hy.
      destruct (String.eqb (key z) "") eqn:Ez; [| reflexivity].
      apply String.eqb_eq in Ez. rewrite Ez in Hy.
      apply string_leb_empty in Hy. apply String.eqb_neq in E.
      now destruct E. }
    rewrite Hnone in IH |- *. cbn [app] in *. now rewrite <- IH.
Qed.
End StableSortByStringKey.

(** X9: sorting by [created_at] (the default) or by [due_date] gives the
    same tasks in ascending order of that text, tasks with equal values in
    their input order.  In the sort by due date a missing date counts as
    the empty string, so the tasks without a due date come first, in their
    input order, before every task that has one. *)
Theorem date_sorts_ascending_stable (tasks : list task) :
  stable_ascending Task.created_at tasks (sort_tasks "created_at" tasks)
  /\ stable_ascending due_key tasks (sort_tasks "due_date" tasks)
  /\ sort_tasks "due_date" tasks
     = List.filter (fun x => String.eqb (due_key x) "") tasks
       ++ List.filter (fun x => negb (String.eqb (due_key x) ""))
            (sort_tasks "due_date" tasks)
  /\ select_tasks None None None "created_at" tasks
     = inr (sort_tasks "created_at" tasks).
Proof.
  assert (E1 : sort_tasks "created_at" tasks
               = Py.sorted (fun x y => String.leb (Task.created_at x)
                                         (Task.created_at y)) tasks)
    by reflexivity.
  assert (E2 : sort_tasks "due_date" tasks
               = Py.sorted (fun x y => String.leb (due_key x) (due_key y))
                   tasks) by reflexivity.
  split; [| split; [| split; [| reflexivity]]].
  - rewrite E1. split; [apply sorted_perm |]. split.
    + apply (sorted_asc Task.created_at).
    + intros k. apply (sorted_stable_key Task.created_at).
  - rewrite E2. split; [apply sorted_perm |]. split.
    + apply (sorted_asc due_key).
    + intros k. apply (sorted_stable_key due_key).
  - rewrite E2.
    rewrite (asc_empty_keys_first due_key _ (sorted_asc due_key tasks)) at 1.
    now rewrite (sorted_stable_key due_key).
Qed.

Lemma filter_true {A : Type} (l : list A) : List.filter (fun _ => true) l = l.
Proof. induction l as [| x r IH]; [reflexivity |]. cbn. now rewrite IH. Qed.

Lemma select_tasks_accepted (status priority tag : option string)
    (sort_by : string) (tasks : list task) :
  accepted_filter STATUSES status = true ->
  accepted_filter PRIORITIES priority = true ->
  select_tasks status priority tag sort_by tasks
  = inr (sort_tasks sort_by (List.filter (passes status priority tag) tasks)).
Proof.
  intros Hs Hp. unfold select_tasks, passes, accepted_filter, valid_in in *.
  destruct status as [s |]; [destruct (Py.truthy s) |];
    (destruct priority as [p |]; [destruct (Py.truthy p) |]);
    (destruct tag as [g |]; [destruct (Py.truthy g) |]);
    cbn [negb orb] in *; rewrite ?Hs, ?Hp; cbn [negb];
    do 2 f_equal; rewrite ?filter_filter_andb;
    first [ exact (eq_sym (filter_true tasks))
          | apply List.filter_ext; intros x;
            now rewrite ?andb_true_r, ?andb_true_l, ?andb_assoc ].
Qed.

(** X10: the filters of a query that is not rejected act as one
    conjunction, applied before the sort: the result is the sorted list of
    the tasks that pass every filter that is given, so each returned task is
    a task of the collection, and every task of the collection that passes
    is returned.  A sort key other than the three known ones leaves the
    filtered tasks in their input order. *)
Theorem filters_are_conjunctive (status priority tag : option string)
    (sort_by : string) (tasks : list task) :
  accepted_filter STATUSES status = true ->
  accepted_filter PRIORITIES priority = true ->
  let result := returned (select_tasks status priority tag sort_by tasks) in
  result
  = sort_tasks sort_by (List.filter (passes status priority tag) tasks)
  /\ Permutation result (List.filter (passes status priority tag) tasks)
  /\ (forall x,
        In x result <-> In x tasks /\ passes status priority tag x = true)
  /\ (Py.str_in sort_by ["created_at"; "due_date"; "priority"] = false ->
      result = List.filter (passes status priority tag) tasks).
Proof.
  intros Hs Hp result. subst result.
  rewrite (select_tasks_accepted _ _ _ _ _ Hs Hp). cbn [returned].
  split; [reflexivity |].
  assert (Hperm : Permutation
                    (sort_tasks sort_by
                       (List.filter (passes status priority tag) tasks))
                    (List.filter (passes status priority tag) tasks))
    by (symmetry; apply sort_tasks_perm).
  split; [exact Hperm |]. split.
  - intros x. rewrite (Permutation_in' (eq_refl x) Hperm).
    apply List.filter_In.
  - intros Hk. unfold sort_tasks. now rewrite Hk.
Qed.

Lemma filters_are_conjunctive_witness :
  accepted_filter STATUSES (Some "Pending") = true
  /\ accepted_filter PRIORITIES (Some "HIGH") = true
  /\ Permutation
       (returned (select_tasks (Some "Pending") (Some "HIGH") (Some "shop")
                    "due_date" [milk; report]))
       (List.filter (passes (Some "Pending") (Some "HIGH") (Some "shop"))
          [milk; report]).
Proof.
  assert (Hs : accepted_filter STATUSES (Some "Pending") = true)
    by reflexivity.
  assert (Hp : accepted_filter PRIORITIES (Some "HIGH") = true)
    by reflexivity.
  split; [exact Hs | split; [exact Hp |]].
  exact (proj1 (proj2 (filters_are_conjunctive (Some "Pending") (Some "HIGH")
                         (Some "shop") "due_date" [milk; report] Hs Hp))).
Defined.

Lemma string_length_append (a b : string) :
  String.length (a +:+ b) = String.length a + String.length b.
Proof.
  induction a as [| c a IH]; [reflexivity |].
  simpl. f_equal. exact IH.
Qed.

Lemma string_length_take (n : nat) (s : string) :
  n <= String.length s -> String.length (Py.take_str n s) = n.
Proof.
  unfold Py.take_str. revert s.
  induction n as [| n IH]; intros [| c s] H; cbn in *; try reflexivity;
    try lia.
  rewrite IH; [reflexivity | lia].
Qed.

(** X11: a row of the table has the seven cells of the header.  The
    description cell is never longer than 30 characters: a description of
    up to 30 characters is shown as it is, a longer one as its first 27
    characters followed by three dots.  A missing due date and an empty tag
    list give empty cells, and the tags are joined by a comma and a
    space. *)
Theorem table_row_shape (x : task) :
  exists shown,
    table_row x
    = [Task.id x; Task.title x; shown; Task.priority x; Task.status x;
       due_key x; Py.join ", " (Task.tags x)]
    /\ String.length shown <= 30
    /\ (String.length (Task.description x) <= 30 ->
        shown = Task.description x)
    /\ (30 < String.length (Task.description x) ->
        shown = Py.take_str 27 (Task.description x) +:+ "..."
        /\ String.length shown = 30).
Proof.
  unfold table_row, due_key.
  assert (Hd : match Task.due_date x with
               | Some d => if Py.truthy d then d else ""
               | None => ""
               end
               = match Task.due_date x with Some d => d | None => "" end).
  { destruct (Task.due_date x) as [d |]; [| reflexivity].
    unfold Py.truthy. destruct (String.eqb_spec d ""); now subst. }
  assert (Ht : match Task.tags x with
               | [] => ""
               | _ => Py.join ", " (Task.tags x)
               end = Py.join ", " (Task.tags x))
    by now destruct (Task.tags x).
  rewrite Hd, Ht. set (d := Task.description x).
  destruct (Nat.ltb 30 (String.length d)) eqn:E.
  - apply Nat.ltb_lt in E.
    assert (Hn : Py.truthy d = true).
    { unfold Py.truthy. destruct (String.eqb_spec d "") as [-> |];
        [cbn in E; lia | reflexivity]. }
    rewrite Hn. cbn [andb]. eexists. split; [reflexivity |].
    assert (Hl : String.length (Py.take_str 27 d +:+ "...") = 30).
    { rewrite string_length_append, string_length_take; [reflexivity | lia]. }
    split; [lia |]. split; [lia |]. intros _. split; [reflexivity | exact Hl].
  - apply Nat.ltb_ge in E. rewrite andb_false_r. eexists.
    split; [reflexivity |]. split; [exact E |]. split; [reflexivity | lia].
Qed.

Lemma lower_char_idem (c : ascii) :
  Py.lower_char (Py.lower_char c) = Py.lower_char c.
Proof. destruct c as [[] [] [] [] [] [] [] []]; reflexivity. Qed.

Lemma lower_idem (s : string) : Py.lower (Py.lower s) = Py.lower s.
Proof.
  induction s as [| c s IH]; [reflexivity |]. cbn [Py.lower].
  now rewrite lower_char_idem, IH.
Qed.

Lemma truthy_lower (s : string) : Py.truthy (Py.lower s) = Py.truthy s.
Proof. now destruct s. Qed.

Lemma update_first_ext (task_id : string) (f g : task -> M task)
    (tasks : list task) (w : world) :
  (forall t w', f t w' = g t w') ->
  update_first task_id f tasks w = update_first task_id g tasks w.
Proof.
  intros H. induction tasks as [| x r IH]; [reflexivity |].
  cbn [update_first]. destruct (String.eqb (Task.id x) task_id).
  - unfold bind. now rewrite H.
  - unfold bind. now rewrite IH.
Qed.

(** X12: a priority or status that is a value of its enum is taken in any
    letter case.  [add_task], [update_task] and the filters of
    [list_tasks] behave with such a value exactly as with its lower-case
    form: same result, same file system, same output. *)
Theorem enum_values_in_any_case (e : env) (task_id : string)
    (title description p s : string)
    (title' description' due_date tag : option string)
    (tags : option (list string)) (sort_by tasks_file : string) (w : world) :
  valid_in PRIORITIES p = true ->
  valid_in STATUSES s = true ->
  add_task e title description p due_date tags tasks_file w
  = add_task e title description (Py.lower p) due_date tags tasks_file w
  /\ update_task e task_id title' description' (Some p) (Some s) due_date
       tags tasks_file w
     = update_task e task_id title' description' (Some (Py.lower p))
         (Some (Py.lower s)) due_date tags tasks_file w
  /\ list_tasks (Some s) (Some p) tag sort_by tasks_file w
     = list_tasks (Some (Py.lower s)) (Some (Py.lower p)) tag sort_by
         tasks_file w.
Proof.
  intros Hp Hs.
  assert (Hp' : valid_in PRIORITIES (Py.lower p) = true)
    by (unfold valid_in in *; now rewrite lower_idem).
  assert (Hs' : valid_in STATUSES (Py.lower s) = true)
    by (unfold valid_in in *; now rewrite lower_idem).
  split; [| split].
  - rewrite !add_task_run. cbv zeta. now rewrite Hp, Hp', lower_idem.
  - unfold update_task, bind.
    destruct (load_tasks tasks_file w) as [ts w'].
    rewrite (update_first_ext task_id
               (update_fields e title' description' (Some p) (Some s)
                  due_date tags)
               (update_fields e title' description' (Some (Py.lower p))
                  (Some (Py.lower s)) due_date tags)); [reflexivity |].
    intros t w''. rewrite !update_fields_run.
    unfold spec_update, field_warnings.
    now rewrite Hp, Hp', Hs, Hs', !lower_idem.
  - unfold list_tasks, bind.
    destruct (load_tasks tasks_file w) as [ts w'].
    assert (E : select_tasks (Some s) (Some p) tag sort_by ts
                = select_tasks (Some (Py.lower s)) (Some (Py.lower p)) tag
                    sort_by ts).
    { unfold select_tasks. rewrite !truthy_lower, !lower_idem.
      unfold valid_in in Hp, Hs. rewrite Hp, Hs. cbn [negb].
      destruct (Py.truthy s), (Py.truthy p); reflexivity. }
    now rewrite E.
Qed.

Lemma enum_values_in_any_case_witness :
  valid_in PRIORITIES "High" = true
  /\ valid_in STATUSES "IN_PROGRESS" = true
  /\ add_task sample_env "Buy milk" "" "High" None None "tasks.json"
       sample_world
     = add_task sample_env "Buy milk" "" "high" None None "tasks.json"
         sample_world.
Proof.
  assert (Hp : valid_in PRIORITIES "High" = true) by reflexivity.
  assert (Hs : valid_in STATUSES "IN_PROGRESS" = true) by reflexivity.
  split; [exact Hp | split; [exact Hs |]].
  exact (proj1 (enum_values_in_any_case sample_env "abc123de" "Buy milk" ""
                  "High" "IN_PROGRESS" None None None None None "created_at"
                  "tasks.json" sample_world Hp Hs)).
Defined.

(** ** Properties of the command line *)

Lemma split_comma_nonempty (s : string) : split_comma s <> [].
Proof.
  induction s as [| c r IH]; cbn [split_comma]; [discriminate |].
  destruct (Ascii.eqb c ","); [discriminate |].
  now destruct (split_comma r).
Qed.

Lemma split_comma_length (s : string) :
  length (split_comma s) = S (count_commas s).
Proof.
  induction s as [| c r IH]; [reflexivity |].
  cbn [split_comma count_commas]. destruct (Ascii.eqb c ",").
  - cbn [length]. now rewrite IH.
  - destruct (split_comma r) as [| x xs] eqn:E.
    + now destruct (split_comma_nonempty r).
    + cbn [length] in *. exact IH.
Qed.

Lemma split_comma_no_comma (s : string) :
  Forall (fun t => count_commas t = 0) (split_comma s).
Proof.
  induction s as [| c r IH]; cbn [split_comma]; [now repeat constructor |].
  destruct (Ascii.eqb c ",") eqn:E.
  - constructor; [reflexivity | exact IH].
  - destruct (split_comma r) as [| x xs].
    + constructor; [| constructor]. cbn. now rewrite E.
    + inversion IH; subst. constructor; [| assumption].
      cbn [count_commas]. now rewrite E.
Qed.

Lemma count_commas_lstrip (s : string) :
  count_commas s = 0 -> count_commas (lstrip s) = 0.
Proof.
  induction s as [| c r IH]; [reflexivity |]. cbn [lstrip].
  destruct (is_space c); [| easy]. cbn [count_commas]. intros H. apply IH.
  lia.
Qed.

Lemma count_commas_rstrip (s : string) :
  count_commas s = 0 -> count_commas (rstrip s) = 0.
Proof.
  induction s as [| c r IH]; [reflexivity |]. cbn [rstrip count_commas].
  intros H. assert (Hr : count_commas (rstrip r) = 0) by (apply IH; lia).
  destruct (rstrip r) as [| c' r'].
  - destruct (is_space c); [reflexivity |]. cbn [count_commas]. lia.
  - cbn [count_commas] in *. lia.
Qed.

Lemma rstrip_cons (c : ascii) (r : string) :
  rstrip (String c r)
  = match rstrip r with
    | EmptyString => if is_space c then "" else String c ""
    | String c' r' => String c (String c' r')
    end.
Proof. reflexivity. Qed.

Lemma rstrip_idem (s : string) : rstrip (rstrip s) = rstrip s.
Proof.
  induction s as [| c r IH]; [reflexivity |]. rewrite rstrip_cons.
  destruct (rstrip r) as [| c' r'] eqn:E.
  - destruct (is_space c) eqn:Ec; [reflexivity |].
    rewrite rstrip_cons. cbn [rstrip]. now rewrite Ec.
  - rewrite rstrip_cons, IH. reflexivity.
Qed.

Lemma lstrip_head (s : string) :
  match lstrip s with
  | EmptyString => True
  | String c _ => is_space c = false
  end.
Proof.
  induction s as [| c r IH]; [exact I |]. cbn [lstrip].
  destruct (is_space c) eqn:E; [exact IH | exact E].
Qed.

Lemma lstrip_rstrip_head (s : string) :
  match s with
  | EmptyString => True
  | String c _ => is_space c = false
  end ->
  lstrip (rstrip s) = rstrip s.
Proof.
  destruct s as [| c r]; [reflexivity |]. intros Hc. rewrite rstrip_cons.
  destruct (rstrip r); rewrite ?Hc; cbn [lstrip]; now rewrite Hc.
Qed.

Lemma strip_idem (s : string) : strip (strip s) = strip s.
Proof.
  unfold strip. rewrite (lstrip_rstrip_head _ (lstrip_head s)).
  apply rstrip_idem.
Qed.

(** X13: what [main] makes of the [--tags] option.  An empty option gives
    no tag; otherwise there is one tag per comma-separated piece, empty
    pieces included, and every tag is free of commas and of white space at
    its ends. *)
Theorem parse_tags_gives_clean_tags (s : string) :
  parse_tags "" = []
  /\ (s <> "" -> length (parse_tags s) = S (count_commas s))
  /\ Forall clean_tag (parse_tags s).
Proof.
  split; [reflexivity |]. split.
  - intros H. unfold parse_tags. rewrite (truthy_nonempty s H).
    rewrite length_map. apply split_comma_length.
  - unfold parse_tags. destruct (Py.truthy s); [| constructor].
    apply Forall_map. eapply List.Forall_impl; [| apply split_comma_no_comma].
    intros t Ht. split; [| apply strip_idem].
    unfold has_comma, strip.
    now rewrite (count_commas_rstrip _ (count_commas_lstrip _ Ht)).
Qed.

Lemma split_comma_single (x : string) :
  count_commas x = 0 -> split_comma x = [x].
Proof.
  induction x as [| c r IH]; [reflexivity |]. cbn [count_commas split_comma].
  destruct (Ascii.eqb c ","); [discriminate |]. intros H.
  now rewrite (IH H).
Qed.

Lemma split_comma_app (x r : string) :
  count_commas x = 0 ->
  split_comma (x +:+ String "," r) = x :: split_comma r.
Proof.
  induction x as [| c x IH]; [reflexivity |].
  cbn [count_commas]. destruct (Ascii.eqb c ",") eqn:E; [discriminate |].
  intros H. simpl. rewrite E. now rewrite (IH H).
Qed.

Lemma split_comma_join (t : string) (ts : list string) :
  Forall (fun x => count_commas x = 0) (t :: ts) ->
  split_comma (Py.join ", " (t :: ts)) = t :: map (String " ") ts.
Proof.
  revert t. induction ts as [| u r IH]; intros t H.
  - inversion H; subst. now apply split_comma_single.
  - inversion H as [| ? ? Ht Hr]; subst.
    change (Py.join ", " (t :: u :: r))
      with (t +:+ String "," (String " " (Py.join ", " (u :: r)))).
    rewrite (split_comma_app _ _ Ht).
    change (split_comma (String " " (Py.join ", " (u :: r))))
      with (match split_comma (Py.join ", " (u :: r)) with
            | x :: xs => String " " x :: xs
            | [] => [String " " ""]
            end).
    now rewrite (IH u Hr).
Qed.

Lemma clean_tag_no_comma (t : string) : clean_tag t -> count_commas t = 0.
Proof.
  intros [H _]. unfold has_comma in H.
  destruct (Nat.eqb_spec (count_commas t) 0); [assumption | discriminate].
Qed.

(** X14: the tags that the table and [view_task] show can be given back to
    [--tags].  For tags free of commas and of white space at their ends,
    parsing their display, where they are joined by a comma and a space,
    gives the same tags; the one exception is the list of a single empty
    tag, whose display is the empty text. *)
Theorem displayed_tags_parse_back (ts : list string) :
  Forall clean_tag ts -> ts <> [""] ->
  parse_tags (Py.join ", " ts) = ts.
Proof.
  intros Hc Hne. destruct ts as [| t r]; [reflexivity |].
  unfold parse_tags.
  assert (Ht : Py.truthy (Py.join ", " (t :: r)) = true).
  { destruct r as [| u r].
    - cbn [Py.join]. apply truthy_nonempty. intros ->. now apply Hne.
    - change (Py.join ", " (t :: u :: r))
        with (t +:+ String "," (String " " (Py.join ", " (u :: r)))).
      now destruct t. }
  rewrite Ht, split_comma_join.
  - inversion Hc as [| ? ? [_ H1] Hr]; subst. cbn [map]. rewrite H1. f_equal.
    clear -Hr. induction Hr as [| u r [_ Hu] Hr IH]; [reflexivity |].
    cbn [map]. rewrite IH. f_equal. exact Hu.
  - eapply List.Forall_impl; [| exact Hc]. exact clean_tag_no_comma.
Qed.

Lemma displayed_tags_parse_back_witness :
  Forall clean_tag ["home"; "Shop"]
  /\ ["home"; "Shop"] <> [""]
  /\ parse_tags (Py.join ", " ["home"; "Shop"]) = ["home"; "Shop"].
Proof.
  assert (Hc : Forall clean_tag ["home"; "Shop"]).
  { constructor; [| constructor; [| constructor]]; split; reflexivity. }
  assert (Hn : ["home"; "Shop"] <> [""]) by discriminate.
  split; [exact Hc | split; [exact Hn |]].
  exact (displayed_tags_parse_back ["home"; "Shop"] Hc Hn).
Defined.

(** X15: how the [--tags] option of the update command reaches the store.
    Without the option the tags of the task stay as they are; with it they
    are replaced by the parsed tags, so that an empty option clears
    them. *)
Theorem update_tags_option (e : env) (task_id : string)
    (title description priority status due otags : option string)
    (tasks_file : string) (w : world) (tasks : list task) (t : task) :
  fs w !! tasks_file = Some (Json tasks) ->
  find_task task_id tasks = Some t ->
  let w' := snd (dispatch e (ArgsUpdate task_id title description priority
                               status due otags tasks_file) w) in
  exists t',
    find_task task_id (stored tasks_file w') = Some t'
    /\ Task.tags t' = match otags with
                      | Some s => parse_tags s
                      | None => Task.tags t
                      end
    /\ (otags = Some "" -> Task.tags t' = []).
Proof.
  intros Hfs Hfind w'. subst w'. cbn [dispatch].
  set (tags' := match otags with
                | Some s => Some (parse_tags s)
                | None => None
                end).
  destruct (update_task_found e task_id title description priority status due
              tags' tasks_file w tasks t Hfs Hfind)
    as (l1 & l2 & _ & _ & _ & Hst & _ & Hfound).
  unfold bind at 1.
  destruct (update_task e task_id title description priority status due tags'
              tasks_file w) as [b w1]. cbn [fst snd ret] in *.
  eexists. unfold stored. rewrite Hst, lookup_insert_eq.
  split; [exact Hfound |]. subst tags'. cbn [spec_update Task.tags].
  split; [now destruct otags | now intros ->].
Qed.

Lemma update_tags_option_witness :
  fs sample_world !! "tasks.json" = Some (Json [milk; report])
  /\ find_task "abc123de" [milk; report] = Some milk
  /\ exists t',
       find_task "abc123de"
         (stored "tasks.json"
            (snd (dispatch sample_env
                    (ArgsUpdate "abc123de" None None None None None
                       (Some "") "tasks.json") sample_world))) = Some t'
       /\ Task.tags t' = [].
Proof.
  assert (Hfs : fs sample_world !! "tasks.json" = Some (Json [milk; report]))
    by (vm_compute; reflexivity).
  assert (Hfind : find_task "abc123de" [milk; report] = Some milk)
    by reflexivity.
  split; [exact Hfs | split; [exact Hfind |]].
  destruct (update_tags_option sample_env "abc123de" None None None None None
              (Some "") "tasks.json" sample_world [milk; report] milk
              Hfs Hfind) as (t' & Hf & _ & Ht).
  exists t'. split; [exact Hf | now apply Ht].
Defined.

(** X16: what [list_tasks] prints for a query that is not rejected.  When
    no stored task passes the filters, a missing or unparsable file
    included, it prints "No tasks found" and no table; otherwise it prints
    one table with one row per passing task, in sorted order, followed by
    the line with their number. *)
Theorem list_tasks_output (status priority tag : option string)
    (sort_by tasks_file : string) (w : world) :
  accepted_filter STATUSES status = true ->
  accepted_filter PRIORITIES priority = true ->
  let shown :=
    sort_tasks sort_by
      (List.filter (passes status priority tag) (stored tasks_file w)) in
  let r := list_tasks status priority tag sort_by tasks_file w in
  (shown = [] ->
   out (snd r)
   = out (snd (load_tasks tasks_file w)) ++ [Line "No tasks found"])
  /\ (shown <> [] ->
      out (snd r)
      = out (snd (load_tasks tasks_file w))
        ++ [Table ["ID"; "Title"; "Description"; "Priority"; "Status";
                   "Due Date"; "Tags"] (map table_row shown);
            Line (nl +:+ "Total: " +:+ Py.str_of_nat (length shown)
                  +:+ " tasks" +:+ nl)])
  /\ (stored tasks_file w = [] -> shown = []).
Proof.
  intros Hs Hp shown r. subst r. unfold list_tasks, bind.
  pose proof (load_tasks_stored tasks_file w) as Hld.
  destruct (load_tasks tasks_file w) as [ts w']. cbn [fst snd] in *.
  subst ts. rewrite (select_tasks_accepted _ _ _ _ _ Hs Hp). fold shown.
  split; [| split].
  - now intros ->.
  - intros Hne. destruct shown as [| x l]; [now destruct Hne |].
    unfold print_table, print. cbn [fst snd fs out].
    now rewrite <- app_assoc.
  - intros E. subst shown. rewrite E. cbn [List.filter].
    apply Permutation_nil. apply sort_tasks_perm.
Qed.

Lemma list_tasks_output_witness :
  accepted_filter STATUSES (Some "completed") = true
  /\ accepted_filter PRIORITIES None = true
  /\ out (snd (list_tasks (Some "completed") None None "priority"
                 "missing.json" sample_world))
     = [Line "No tasks found"].
Proof.
  assert (Hs : accepted_filter STATUSES (Some "completed") = true)
    by reflexivity.
  assert (Hp : accepted_filter PRIORITIES None = true) by reflexivity.
  split; [exact Hs | split; [exact Hp |]].
  refine (proj1 (list_tasks_output (Some "completed") None None "priority"
                   "missing.json" sample_world Hs Hp) _).
  reflexivity.
Defined.

Lemma spec_update_twice (e1 e2 : env)
    (title description priority status due_date : option string)
    (tags : option (list string)) (t : task) :
  spec_update e2 title description priority status due_date tags
    (spec_update e1 title description priority status due_date tags t)
  = spec_update e1 title description priority status due_date tags t.
Proof.
  destruct t as [i ti de pr st cr du co tg]. unfold spec_update.
  cbn [Task.id Task.title Task.description Task.priority Task.status
       Task.created_at Task.due_date Task.completed_at Task.tags].
  f_equal.
  - now destruct title.
  - now destruct description.
  - destruct priority as [p |]; [| reflexivity].
    now destruct (valid_in PRIORITIES p).
  - destruct status as [s |]; [| reflexivity].
    now destruct (valid_in STATUSES s).
  - now destruct due_date.
  - destruct status as [s |]; [| reflexivity].
    destruct (valid_in STATUSES s); [| reflexivity].
    destruct (String.eqb (Py.lower s) "completed") eqn:Es; [| reflexivity].
    now destruct (String.eqb st "completed").
  - now destruct tags.
Qed.

(** X17: repeating an update changes nothing more.  The same update of the
    same id run a second time, at a later time, leaves the file system
    exactly as the first run left it; in particular a task that is marked
    completed again keeps its first completion time. *)
Theorem update_task_twice (e1 e2 : env) (task_id : string)
    (title description priority status due_date : option string)
    (tags : option (list string)) (tasks_file : string) (w : world) :
  let once := update_task e1 task_id title description priority status
                due_date tags tasks_file w in
  let twice := update_task e2 task_id title description priority status
                 due_date tags tasks_file (snd once) in
  fs (snd twice) = fs (snd once) /\ fst twice = fst once.
Proof.
  intros once twice.
  destruct (find_task task_id (stored tasks_file w)) as [t |] eqn:Ef.
  - pose proof (find_task_stored_json _ _ _ _ Ef) as Hfs.
    destruct (update_task_found e1 task_id title description priority status
                due_date tags tasks_file w _ t Hfs Ef)
      as (l1 & l2 & Hl & Hn & Hret & Hst & _ & Hfound).
    fold once in Hret, Hst.
    set (t1 := spec_update e1 title description priority status due_date
                 tags t) in *.
    assert (Hfs1 : fs (snd once) !! tasks_file = Some (Json (l1 ++ t1 :: l2)))
      by (rewrite Hst; apply lookup_insert_eq).
    destruct (update_task_found e2 task_id title description priority status
                due_date tags tasks_file (snd once) _ t1 Hfs1 Hfound)
      as (k1 & k2 & Hk & Hkn & Hret2 & Hst2 & _).
    fold twice in Hret2, Hst2. split; [| congruence].
    rewrite Hst2. subst t1. rewrite spec_update_twice.
    rewrite <- Hk. now apply insert_id.
  - assert (Hfs1 : fs (snd once) = fs w)
      by (subst once; now apply update_task_absent).
    assert (Ef1 : find_task task_id (stored tasks_file (snd once)) = None).
    { rewrite (stored_same_file tasks_file w); [exact Ef | now rewrite Hfs1]. }
    split.
    + subst twice. now rewrite (update_task_absent _ _ _ _ _ _ _ _ _ _ Ef1).
    + assert (Hfalse : forall e x,
                 find_task task_id (stored tasks_file x) = None ->
                 fst (update_task e task_id title description priority status
                        due_date tags tasks_file x) = false).
      { intros e x Hx. unfold update_task, bind.
        pose proof (load_tasks_stored tasks_file x) as Hld.
        destruct (load_tasks tasks_file x) as [ts x']. cbn [fst snd] in *.
        subst ts. now rewrite (update_first_absent _ _ _ _ Hx). }
      subst once twice. now rewrite !Hfalse.
Qed.

